(** * SafeWeave gateway: a shallow embedding of the scan orchestration core

    The development follows the TypeScript sources of the gateway package:
    - [packages/common/src/types.ts]            (module [Common])
    - [packages/gateway/src/router/scanner-client.ts] (module [ScannerClient])
    - [packages/gateway/src/router/index.ts]    (module [Router])
    - [packages/gateway/src/license.ts]         (module [License])
    - [packages/gateway/src/profiles/index.ts]  (module [Profiles])
    - [packages/gateway/src/http-bridge.ts], licensed variant (module [HttpBridge])
    - [packages/gateway/src/server.ts]          (module [Server])

    Asynchronous functions are modelled in an exception monad: a promise that
    is fulfilled is [Normal v], one that is rejected is [Throw e].  What the
    network answers and what the clock reads are explicit arguments. *)

From Stdlib Require Import ZArith Lia.
From stdpp Require Import base tactics option list strings gmap pretty.

Set Warnings "-register-all,-clear-no-such-hyp".

Local Open Scope string_scope.
Local Open Scope list_scope.
Local Open Scope Z_scope.

(** ** JavaScript runtime notions used by the sources *)

Module Js.

(** A thrown value.  The sources only ever distinguish
    [err instanceof Error] (then they read [err.message]) from anything
    else (then they take [String(err)]). *)
Inductive Thrown : Type :=
| ErrorObject (message : string)
| NonError (printed : string).

(** Completion of an [async] function or of a [try] block. *)
Inductive Result (A : Type) : Type :=
| Normal (a : A)
| Throw (e : Thrown).
Arguments Normal {A} a.
Arguments Throw {A} e.

#[global] Instance Result_ret : MRet Result := fun _ a => Normal a.
#[global] Instance Result_bind : MBind Result := fun _ _ k m =>
  match m with
  | Normal a => k a
  | Throw e => Throw e
  end.

(** [try { body } catch (err) { handler(err) }] *)
Definition try_catch {A} (body : Result A) (handler : Thrown → Result A) : Result A :=
  match body with
  | Normal a => Normal a
  | Throw e => handler e
  end.

(** [err instanceof Error ? err.message : String(err)] *)
Definition error_message (err : Thrown) : string :=
  match err with
  | ErrorObject m => m
  | NonError s => s
  end.

(** What [await response.json()] gives: a rejection when the body is not
    JSON, otherwise the parsed value, which the sources cast to the
    expected interface without looking at it. *)
Inductive JsonBody (A : Type) : Type :=
| BodyInvalid (e : Thrown)
| BodyValue (a : A).
Arguments BodyInvalid {A} e.
Arguments BodyValue {A} a.

Record Response (A : Type) : Type := mkResponse {
  status : Z;
  body : JsonBody A;
}.
Arguments mkResponse {A} _ _.
Arguments status {A} _.
Arguments body {A} _.

(** [response.ok]: the status is in the range 200-299. *)
Definition ok {A} (r : Response A) : bool :=
  (200 <=? status r) && (status r <=? 299).

(** [await response.json()] *)
Definition json {A} (r : Response A) : Result A :=
  match body r with
  | BodyInvalid e => Throw e
  | BodyValue a => Normal a
  end.

(** A value of a YAML or JSON document, and of the object literals of the
    sources: the tagged tree on which [deepMerge] works.  An object is the
    list of its own enumerable properties in insertion order. *)
Inductive Value : Type :=
| VNull
| VBool (b : bool)
| VNum (n : Z)
| VStr (s : string)
| VArr (items : list Value)
| VObj (fields : list (string * Value)).

(** Truthiness, as [if (v)] and [a && b] test it. *)
Definition truthy (v : Value) : bool :=
  match v with
  | VNull => false
  | VBool b => b
  | VNum n => negb (n =? 0)
  | VStr s => negb (String.eqb s "")
  | VArr _ | VObj _ => true
  end.

(** Lookup in a list of entries with distinct keys: the own property
    [o[k]] of an object, [m.get(k)] of a [Map]. *)
Fixpoint get {V} (k : string) (o : list (string * V)) : option V :=
  match o with
  | [] => None
  | (k', v) :: rest => if String.eqb k' k then Some v else get k rest
  end.

(** [m.set(k, v)] of a [Map] and the definition of an own property: an
    existing entry keeps its place, a new one is added at the end. *)
Fixpoint set {V} (k : string) (v : V) (o : list (string * V)) : list (string * V) :=
  match o with
  | [] => [(k, v)]
  | (k', v') :: rest =>
      if String.eqb k' k then (k, v) :: rest else (k', v') :: set k v rest
  end.

(** [delete o[k]] *)
Fixpoint remove {V} (k : string) (o : list (string * V)) : list (string * V) :=
  match o with
  | [] => []
  | (k', v') :: rest =>
      if String.eqb k' k then remove k rest else (k', v') :: remove k rest
  end.

(** [Object.keys(o)] *)
Definition keys {V} (o : list (string * V)) : list string := o.*1.

(** [xs.join(sep)] on strings *)
Fixpoint join (sep : string) (xs : list string) : string :=
  match xs with
  | [] => ""
  | [x] => x
  | x :: rest => x +:+ sep +:+ join sep rest
  end.

(** The members every object literal inherits from [Object.prototype]
    (Node.js): a read [o[k]] finds them when [o] has no own property [k]. *)
Definition Object_prototype : list string :=
  [ "constructor"; "__defineGetter__"; "__defineSetter__"; "hasOwnProperty";
    "__lookupGetter__"; "__lookupSetter__"; "isPrototypeOf";
    "propertyIsEnumerable"; "toString"; "valueOf"; "__proto__";
    "toLocaleString" ].

(** What a read [o[k]] of an object literal evaluates to. *)
Inductive Read (V : Type) : Type :=
| Own (v : V)
| Inherited (member : string)
| Undefined.
Arguments Own {V} v.
Arguments Inherited {V} member.
Arguments Undefined {V}.

(** [o[k]], own properties first, then the prototype. *)
Definition read {V} (k : string) (o : list (string * V)) : Read V :=
  match get k o with
  | Some v => Own v
  | None => if bool_decide (k ∈ Object_prototype) then Inherited k else Undefined
  end.

(** [o[k] = v] on an object literal.  When [k] is [__proto__] and [o] has
    no own property of that name, the assignment goes to the accessor of
    [Object.prototype] and changes no own property. *)
Definition assign {V} (k : string) (v : V) (o : list (string * V)) : list (string * V) :=
  match get k o with
  | None => if String.eqb k "__proto__" then o else set k v o
  | Some _ => set k v o
  end.

(** [String(v)], which template literals and property keys apply. *)
Fixpoint to_string (v : Value) : string :=
  match v with
  | VNull => "null"
  | VBool b => if b then "true" else "false"
  | VNum n => pretty n
  | VStr s => s
  | VArr items =>
      join "," (map (fun i => match i with VNull => "" | _ => to_string i end) items)
  | VObj _ => "[object Object]"
  end.

End Js.

Import Js.

(** ** packages/common/src/types.ts *)

Module Common.

Inductive Severity : Type := critical | high | medium | low | info.

#[global] Instance Severity_eq_dec : EqDecision Severity.
Proof. solve_decision. Defined.

Record FileTarget : Type := mkFileTarget {
  path : string;
  content : option string;
}.

Record ProfileRules : Type := mkProfileRules {
  name : string;
  rules : Value;
}.

Record ProjectContext : Type := mkProjectContext {
  language : option string;
  framework : option string;
  rootDir : option string;
  target_url : option string;
}.

(** [line] is a JavaScript number; the scanners report integral line
    numbers, which is what the embedding keeps. *)
Record Finding : Type := mkFinding {
  finding_id : string;
  severity : Severity;
  title : string;
  description : string;
  file : string;
  line : option Z;
  cwe : option string;
  compliance : option (list string);
  remediation : string;
  code_snippet : option string;
  fix_snippet : option string;
}.

Record ScanRequest : Type := mkScanRequest {
  files : list FileTarget;
  profile : ProfileRules;
  context : ProjectContext;
}.

Record ScanMetadata : Type := mkScanMetadata {
  scanner : string;
  version : string;
  duration_ms : Z;
  files_scanned : Z;
  timestamp : string;
  warnings : option (list string);
}.

Record ScanResult : Type := mkScanResult {
  findings : list Finding;
  metadata : ScanMetadata;
}.

End Common.

Import Common.

(** ** packages/gateway/src/router/scanner-client.ts *)

Module ScannerClient.

Record ScannerClient : Type := mkScannerClient {
  baseUrl : string;
  name : string;
}.

(** What one [fetch(url, {method: 'POST', body})] call comes to: the
    promise is rejected (connection refused, DNS failure, abort), or a
    response arrives. *)
Definition Fetch : Type := string → ScanRequest → Result (Response ScanResult).

(** The result built in the [catch] branch of [scan]. *)
Definition degraded (c : ScannerClient) (now_iso : string) (message : string) : ScanResult :=
  {| findings := [];
     metadata := {| scanner := name c;
                    version := "0.0.0";
                    duration_ms := 0;
                    files_scanned := 0;
                    timestamp := now_iso;
                    warnings := Some ["Scanner '" +:+ name c +:+ "' unavailable: " +:+ message] |} |}.

(** [async scan(request)] *)
Definition scan (fetch : Fetch) (now_iso : string) (c : ScannerClient)
    (request : ScanRequest) : Result ScanResult :=
  try_catch
    (response ← fetch (baseUrl c +:+ "/scan") request;
     if negb (ok response)
     then Throw (ErrorObject ("Scanner " +:+ name c +:+ " returned " +:+ pretty (status response)))
     else json response)
    (fun err => Normal (degraded c now_iso (error_message err))).

(** What [fetch(`${this.baseUrl}/health`)] comes to; only [response.ok] is
    read. *)
Definition Probe : Type := string → Result (Response ()).

(** [async isHealthy()] *)
Definition isHealthy (probe : Probe) (c : ScannerClient) : Result bool :=
  try_catch
    (response ← probe (baseUrl c +:+ "/health");
     Normal (ok response))
    (fun _ => Normal false).

End ScannerClient.

(** ** packages/gateway/src/router/index.ts *)

Module Router.

(** [ScannerConfig] of config.ts; [config.scanners] is read through
    [Object.entries], a list of named entries. *)
Record ScannerConfig : Type := mkScannerConfig {
  enabled : bool;
  host : string;
  port : Z;
}.

(** [private clients: Map<string, ScannerClient>]: unique keys, iterated
    in insertion order; [Js.set] is [Map.prototype.set]. *)
Record Router : Type := mkRouter {
  clients : list (string * ScannerClient.ScannerClient);
}.

(** The body of the constructor's loop:
    [if (scanner.enabled) this.clients.set(name, new ScannerClient(...))] *)
Definition register (m : list (string * ScannerClient.ScannerClient))
    (entry : string * ScannerConfig) : list (string * ScannerClient.ScannerClient) :=
  let '(name, scanner) := entry in
  if enabled scanner
  then Js.set name
         (ScannerClient.mkScannerClient
            ("http://" +:+ host scanner +:+ ":" +:+ pretty (port scanner)) name)
         m
  else m.

(** [constructor(config)] *)
Definition constructor (scanners : list (string * ScannerConfig)) : Router :=
  {| clients := foldl register [] scanners |}.

(** [`${f.line}`]: an absent line prints as [undefined]. *)
Definition line_to_string (l : option Z) : string :=
  match l with
  | None => "undefined"
  | Some n => pretty n
  end.

(** [f.cwe || f.title]: the title is taken when [cwe] is absent and also
    when it is the empty string. *)
Definition cwe_or_title (f : Finding) : string :=
  match cwe f with
  | Some c => if String.eqb c "" then title f else c
  | None => title f
  end.

(** [`${f.file}:${f.line}:${f.cwe || f.title}`] *)
Definition dedup_key (f : Finding) : string :=
  file f +:+ ":" +:+ line_to_string (line f) +:+ ":" +:+ cwe_or_title f.

(** The [filter] callback of [deduplicateFindings], with the set [seen]
    it updates passed along. *)
Fixpoint filter_seen (seen : gset string) (findings : list Finding) : list Finding :=
  match findings with
  | [] => []
  | f :: rest =>
      let key := dedup_key f in
      if decide (key ∈ seen) then filter_seen seen rest
      else f :: filter_seen ({[key]} ∪ seen) rest
  end.

Definition deduplicateFindings (findings : list Finding) : list Finding :=
  filter_seen ∅ findings.

(** The predicate of [.filter(([name]) => !requestedScanners || requestedScanners.has(name))] *)
Definition is_requested (requestedScanners : option (gset string))
    (entry : string * ScannerClient.ScannerClient) : bool :=
  match requestedScanners with
  | None => true
  | Some s => bool_decide (entry.1 ∈ s)
  end.

(** One turn of the loop over the settled promises: a fulfilled one adds
    its findings and, when it has any, its warnings; a rejected one adds
    nothing. *)
Definition collect_step (acc : list Finding * list string) (result : Result ScanResult)
    : list Finding * list string :=
  let '(allFindings, allWarnings) := acc in
  match result with
  | Normal r =>
      (allFindings ++ findings r,
       match warnings (metadata r) with
       | Some ws => allWarnings ++ ws
       | None => allWarnings
       end)
  | Throw _ => (allFindings, allWarnings)
  end.

Definition collect (results : list (Result ScanResult)) : list Finding * list string :=
  foldl collect_step ([], []) results.

(** [async scanAll(request, requestedScanners?)].  [start] and [finish]
    are the two readings of [Date.now()], [now_iso] the gateway's own
    timestamp and [client_iso] the one each client would read. *)
Definition scanAll (fetch : ScannerClient.Fetch) (start finish : Z) (now_iso : string)
    (client_iso : string → string) (r : Router) (request : ScanRequest)
    (requestedScanners : option (gset string)) : Result ScanResult :=
  let promises :=
    map (fun entry : string * ScannerClient.ScannerClient =>
           ScannerClient.scan fetch (client_iso entry.1) entry.2 request)
        (List.filter (is_requested requestedScanners) (clients r)) in
  let '(allFindings, allWarnings) := collect promises in
  Normal
    {| findings := deduplicateFindings allFindings;
       metadata := {| scanner := "safeweave-gateway";
                      version := "0.1.0";
                      duration_ms := finish - start;
                      files_scanned := Z.of_nat (length (files request));
                      timestamp := now_iso;
                      warnings := match allWarnings with
                                  | [] => None
                                  | _ :: _ => Some allWarnings
                                  end |} |}.

(** [async scanWith(scannerName, request)] *)
Definition scanWith (fetch : ScannerClient.Fetch) (now_iso : string) (r : Router)
    (scannerName : string) (request : ScanRequest) : Result ScanResult :=
  match Js.get scannerName (clients r) with
  | None =>
      Normal
        {| findings := [];
           metadata := {| scanner := scannerName;
                          version := "0.0.0";
                          duration_ms := 0;
                          files_scanned := 0;
                          timestamp := now_iso;
                          warnings := None |} |}
  | Some client => ScannerClient.scan fetch now_iso client request
  end.

(** The loop of [healthCheck]: [checks[name] = await client.isHealthy()]
    for each entry of the client map, in order. *)
Fixpoint healthCheck_loop (probe : ScannerClient.Probe)
    (entries : list (string * ScannerClient.ScannerClient))
    (checks : list (string * bool)) : Result (list (string * bool)) :=
  match entries with
  | [] => Normal checks
  | (name, client) :: rest =>
      healthy ← ScannerClient.isHealthy probe client;
      healthCheck_loop probe rest (assign name healthy checks)
  end.

(** [async healthCheck()] *)
Definition healthCheck (probe : ScannerClient.Probe) (r : Router)
    : Result (list (string * bool)) :=
  healthCheck_loop probe (clients r) [].

End Router.

(** ** packages/gateway/src/license.ts *)

Module License.

Record LicenseValidation : Type := mkLicenseValidation {
  valid : bool;
  plan : option string;
  features : list string;
  expires_at : option string;
}.

Record CacheEntry : Type := mkCacheEntry {
  result : LicenseValidation;
  expiry : Z;
}.

Definition CACHE_TTL_MS : Z := 60 * 60 * 1000.

Definition INVALID_RESULT : LicenseValidation :=
  {| valid := false; plan := None; features := []; expires_at := None |}.

(** [private cache = new Map<string, CacheEntry>()] *)
Record LicenseClient : Type := mkLicenseClient {
  serverUrl : string;
  cache : gmap string CacheEntry;
}.

(** [new LicenseClient(serverUrl)] *)
Definition constructor (url : string) : LicenseClient :=
  {| serverUrl := url; cache := ∅ |}.

(** The remote authority: what
    [fetch(url, {method: 'POST', body: {key}, signal: AbortSignal.timeout(5000)})]
    comes to.  A timeout rejects the promise like any transport error. *)
Definition Fetch : Type := string → string → Result (Response LicenseValidation).

Definition validate_url (c : LicenseClient) : string :=
  serverUrl c +:+ "/api/v1/validate".

(** What a call of [validate] leaves behind: the verdict, the client with
    its cache, and the remote calls it issued (their URLs, in order). *)
Record Validated : Type := mkValidated {
  verdict : LicenseValidation;
  client : LicenseClient;
  remote_calls : list string;
}.

(** The [try] block of [validate] once the cache has missed.  [stored_at]
    is the reading of [Date.now()] when the entry is written. *)
Definition validate_remote (fetch : Fetch) (stored_at : Z) (c : LicenseClient)
    (key : string) : Result (LicenseValidation * LicenseClient) :=
  try_catch
    (res ← fetch (validate_url c) key;
     if negb (ok res) then Normal (INVALID_RESULT, c)
     else
       result ← json res;
       if valid result
       then Normal (result,
                    {| serverUrl := serverUrl c;
                       cache := <[key := {| result := result;
                                            expiry := stored_at + CACHE_TTL_MS |}]> (cache c) |})
       else Normal (result, c))
    (fun _ => Normal (INVALID_RESULT, c)).

(** [async validate(key)].  [now] is the reading of [Date.now()] in the
    cache test. *)
Definition validate (fetch : Fetch) (now stored_at : Z) (c : LicenseClient)
    (key : string) : Result Validated :=
  match cache c !! key with
  | Some cached =>
      if expiry cached >? now
      then Normal {| verdict := result cached; client := c; remote_calls := [] |}
      else
        '(v, c') ← validate_remote fetch stored_at c key;
        Normal {| verdict := v; client := c'; remote_calls := [validate_url c] |}
  | None =>
      '(v, c') ← validate_remote fetch stored_at c key;
      Normal {| verdict := v; client := c'; remote_calls := [validate_url c] |}
  end.

(** The client once the verdict [v] is cached for [key] at [stored_at]. *)
Definition with_cached (c : LicenseClient) (key : string) (v : LicenseValidation)
    (stored_at : Z) : LicenseClient :=
  {| serverUrl := serverUrl c;
     cache := <[key := {| result := v; expiry := stored_at + CACHE_TTL_MS |}]> (cache c) |}.

(** The cache holds an entry for [key] that has not expired at [now]. *)
Definition cache_live (c : LicenseClient) (key : string) (now : Z) : bool :=
  match cache c !! key with
  | Some cached => expiry cached >? now
  | None => false
  end.

(** The remote call answers with a response that is a success and whose
    body is the verdict [v]. *)
Definition answers (fetch : Fetch) (c : LicenseClient) (key : string)
    (v : LicenseValidation) : Prop :=
  ∃ res, fetch (validate_url c) key = Normal res ∧ ok res = true ∧ body res = BodyValue v.

(** The remote authority cannot be reached: the call is rejected (network
    error, timeout), the response is not a success, or its body is not
    JSON. *)
Definition unreachable (fetch : Fetch) (c : LicenseClient) (key : string) : Prop :=
  (∃ e, fetch (validate_url c) key = Throw e)
  ∨ (∃ res, fetch (validate_url c) key = Normal res
            ∧ (ok res = false ∨ ∃ e, body res = BodyInvalid e)).

(** [!key] on an optional string: absent or empty. *)
Definition no_key (key : option string) : bool :=
  match key with
  | None => true
  | Some k => String.eqb k ""
  end.

(** [async isFeatureAllowed(key, feature)], with what the call of
    [validate] leaves behind. *)
Definition isFeatureAllowed (fetch : Fetch) (now stored_at : Z) (c : LicenseClient)
    (key : option string) (feature : string) : Result (bool * LicenseClient * list string) :=
  match key with
  | None => Normal (false, c, [])
  | Some k =>
      if String.eqb k "" then Normal (false, c, [])
      else
        validated ← validate fetch now stored_at c k;
        Normal (valid (verdict validated)
                && bool_decide (feature ∈ features (verdict validated)),
                client validated, remote_calls validated)
  end.





End License.

(** ** packages/gateway/src/profiles/index.ts *)

Module Profiles.

Definition strings (xs : list string) : Value := VArr (VStr <$> xs).

(** A [Profile] is kept as the object it is at run time: [deepMerge]
    works on it as a [Record<string, unknown>]. *)
Definition make_profile (name description error warn : string)
    (rules : list (string * Value)) : Value :=
  VObj [ ("name", VStr name);
         ("version", VStr "1.0");
         ("description", VStr description);
         ("severity_thresholds", VObj [("error", VStr error); ("warn", VStr warn)]);
         ("rules", VObj rules) ].

Definition standard : Value :=
  make_profile "standard"
    "Standard security profile — OWASP Top 10, common CVEs, secrets detection"
    "high" "medium"
    [ ("sast", VObj [("enabled", VBool true); ("rulesets", strings ["owasp-top-10"])]);
      ("dependencies", VObj [("enabled", VBool true); ("max_cvss_score", VNum 7);
                             ("require_lockfile", VBool true)]);
      ("secrets", VObj [("enabled", VBool true)]) ].

Definition hardened : Value :=
  make_profile "hardened"
    "Hardened security profile — strict thresholds, crypto requirements"
    "medium" "low"
    [ ("sast", VObj [("enabled", VBool true);
                     ("rulesets", strings ["owasp-top-10"; "crypto-best-practices"; "auth-best-practices"]);
                     ("custom_rules", strings ["enforce-tls-1.2-minimum"; "no-eval"; "no-dynamic-require"])]);
      ("dependencies", VObj [("enabled", VBool true); ("max_cvss_score", VNum 4);
                             ("blocked_licenses", strings ["AGPL-3.0"]);
                             ("require_lockfile", VBool true)]);
      ("secrets", VObj [("enabled", VBool true)]) ].

Definition owasp : Value :=
  make_profile "owasp" "OWASP Top 10 focused profile" "high" "medium"
    [ ("sast", VObj [("enabled", VBool true);
                     ("rulesets", strings ["owasp-top-10"; "injection"; "xss"; "ssrf"; "broken-access-control"]);
                     ("custom_rules", strings ["no-eval"; "no-innerHTML"; "enforce-parameterized-queries"])]);
      ("dependencies", VObj [("enabled", VBool true); ("max_cvss_score", VNum 7);
                             ("require_lockfile", VBool true)]);
      ("secrets", VObj [("enabled", VBool true)]);
      ("iac", VObj [("enabled", VBool true)]);
      ("dast", VObj [("enabled", VBool true);
                     ("checks", strings ["sql-injection"; "xss-reflected"; "xss-stored"; "ssrf"; "open-redirect"])]) ].

Definition soc2 : Value :=
  make_profile "soc2" "SOC 2 Type II compliance profile" "medium" "low"
    [ ("sast", VObj [("enabled", VBool true);
                     ("rulesets", strings ["owasp-top-10"; "auth-best-practices"; "crypto-best-practices"]);
                     ("custom_rules", strings ["enforce-tls-1.2-minimum"; "require-audit-logging";
                                               "enforce-session-timeout"; "no-hardcoded-credentials"])]);
      ("dependencies", VObj [("enabled", VBool true); ("max_cvss_score", VNum 5);
                             ("require_lockfile", VBool true)]);
      ("secrets", VObj [("enabled", VBool true)]);
      ("container", VObj [("enabled", VBool true); ("require_non_root", VBool true)]);
      ("iac", VObj [("enabled", VBool true)]) ].

Definition pci_dss : Value :=
  make_profile "pci-dss" "PCI DSS v4.0 compliance profile" "medium" "low"
    [ ("sast", VObj [("enabled", VBool true);
                     ("rulesets", strings ["owasp-top-10"; "crypto-best-practices"; "auth-best-practices"]);
                     ("custom_rules", strings ["enforce-tls-1.2-minimum"; "no-weak-ciphers"; "no-plaintext-pan";
                                               "enforce-input-validation"; "require-audit-logging";
                                               "enforce-session-timeout"])]);
      ("dependencies", VObj [("enabled", VBool true); ("max_cvss_score", VNum 4);
                             ("blocked_licenses", strings ["AGPL-3.0"]);
                             ("require_lockfile", VBool true)]);
      ("secrets", VObj [("enabled", VBool true)]);
      ("container", VObj [("enabled", VBool true); ("require_non_root", VBool true);
                          ("blocked_base_images", strings ["latest"])]);
      ("iac", VObj [("enabled", VBool true)]) ].

Definition hipaa : Value :=
  make_profile "hipaa" "HIPAA Security Rule compliance profile" "medium" "low"
    [ ("sast", VObj [("enabled", VBool true);
                     ("rulesets", strings ["owasp-top-10"; "crypto-best-practices"; "auth-best-practices"]);
                     ("custom_rules", strings ["enforce-tls-1.2-minimum"; "enforce-encryption-at-rest";
                                               "no-phi-in-logs"; "require-audit-logging";
                                               "enforce-access-control"; "enforce-session-timeout"])]);
      ("dependencies", VObj [("enabled", VBool true); ("max_cvss_score", VNum 4);
                             ("require_lockfile", VBool true)]);
      ("secrets", VObj [("enabled", VBool true)]);
      ("container", VObj [("enabled", VBool true); ("require_non_root", VBool true)]);
      ("iac", VObj [("enabled", VBool true)]) ].

Definition BUILT_IN_PROFILES : list (string * Value) :=
  [ ("standard", standard); ("hardened", hardened); ("owasp", owasp);
    ("soc2", soc2); ("pci-dss", pci_dss); ("hipaa", hipaa) ].

Record ProfileManager : Type := mkProfileManager {
  profiles : list (string * Value);
  activeProfile : string;
}.

(** [constructor(customProfiles?)]: [{ ...BUILT_IN_PROFILES, ...customProfiles }] *)
Definition constructor (customProfiles : list (string * Value)) : ProfileManager :=
  {| profiles := foldl (fun o entry => Js.set entry.1 entry.2 o) BUILT_IN_PROFILES customProfiles;
     activeProfile := "standard" |}.

(** [getActive()]: [this.profiles[this.activeProfile]] *)
Definition getActive (pm : ProfileManager) : Read Value :=
  read (activeProfile pm) (profiles pm).

(** [listProfiles()] *)
Definition listProfiles (pm : ProfileManager) : list string :=
  keys (profiles pm).

(** [getProfile(name)] *)
Definition getProfile (pm : ProfileManager) (name : string) : Read Value :=
  read name (profiles pm).

(** [!v] of what a property read gave: a member inherited from
    [Object.prototype] is a function or an object, hence truthy. *)
Definition read_truthy (r : Read Value) : bool :=
  match r with
  | Own v => truthy v
  | Inherited _ => true
  | Undefined => false
  end.

(** [setActive(name)] *)
Definition setActive (pm : ProfileManager) (name : string) : Result ProfileManager :=
  if negb (read_truthy (read name (profiles pm)))
  then Throw (ErrorObject ("Unknown profile: " +:+ name +:+ ". Available: "
                           +:+ join ", " (listProfiles pm)))
  else Normal {| profiles := profiles pm; activeProfile := name |}.

(** [deepMerge(target, source)], by recursion on the source tree.  The
    loop runs over the own properties of [source] in order; [result]
    starts as the copy [{ ...target }].  The test
    [srcVal && tgtVal && typeof srcVal === 'object' && typeof tgtVal === 'object'
     && !Array.isArray(srcVal) && !Array.isArray(tgtVal)]
    holds exactly when both values are [VObj]: [null] is not truthy and an
    array is excluded.

    [target[key]] is read as an own property: a member inherited from
    [Object.prototype] is a function, which fails the [typeof] test like
    an absent property does, except for [__proto__], and there the
    assignment [result[key] = ...] changes no own property whatever is
    assigned (see [Js.assign]). *)
Fixpoint merge_into (target : list (string * Value)) (source : Value) {struct source}
    : list (string * Value) :=
  match source with
  | VObj fields =>
      (fix loop (fields : list (string * Value)) (result : list (string * Value))
           {struct fields} : list (string * Value) :=
         match fields with
         | [] => result
         | (key, srcVal) :: rest =>
             if String.eqb key "extends" then loop rest result
             else
               match srcVal, get key target with
               | VObj _, Some (VObj tgtVal) =>
                   loop rest (assign key (VObj (merge_into tgtVal srcVal)) result)
               | _, _ => loop rest (assign key srcVal result)
               end
         end) fields target
  | _ => target
  end.

Definition deepMerge (target source : list (string * Value)) : list (string * Value) :=
  merge_into target (VObj source).

(** The [for] loop of [deepMerge] on its own, from a given [result] on
    ([deepMerge_loop] below relates the two). *)
Fixpoint merge_loop (target fields result : list (string * Value)) {struct fields}
    : list (string * Value) :=
  match fields with
  | [] => result
  | (key, srcVal) :: rest =>
      if String.eqb key "extends" then merge_loop target rest result
      else
        match srcVal, get key target with
        | VObj _, Some (VObj tgtVal) =>
            merge_loop target rest (assign key (VObj (merge_into tgtVal srcVal)) result)
        | _, _ => merge_loop target rest (assign key srcVal result)
        end
  end.

(** What [loadCustomProfile] returns and leaves behind. *)
Inductive Loaded : Type :=
| Null
    (** [return null] *)
| Custom (merged : Value) (pm' : ProfileManager)
    (** [return merged], with the manager after [this.profiles.custom = merged] *)
| NotAProfile (base : Read Value)
    (** the base that was read is no profile object (a member inherited
        from [Object.prototype], or a registered value that is not an
        object); what the merge makes of it is outside this model *).

(** [parsed?.extends] *)
Definition extends_of (parsed : Value) : option Value :=
  match parsed with
  | VObj fields => get "extends" fields
  | _ => None
  end.

(** [loadCustomProfile(projectDir)].  [override] is [None] when
    [.safeweave/profile.yaml] does not exist, and otherwise what reading
    and parsing it comes to. *)
Definition loadCustomProfile (pm : ProfileManager) (override : option (Result Value))
    : Result Loaded :=
  match override with
  | None => Normal Null
  | Some file =>
      parsed ← file;
      match extends_of parsed, parsed with
      | Some ext, VObj fields =>
          if negb (truthy ext) then Normal Null
          else
            let base := read (to_string ext) (profiles pm) in
            if negb (read_truthy base)
            then Throw (ErrorObject ("Unknown base profile: " +:+ to_string ext))
            else
              match base with
              | Own (VObj b) =>
                  let merged := deepMerge b fields in
                  let merged := assign "name" (VStr "custom") merged in
                  let merged := remove "extends" merged in
                  Normal (Custom (VObj merged)
                            {| profiles := assign "custom" (VObj merged) (profiles pm);
                               activeProfile := activeProfile pm |})
              | _ => Normal (NotAProfile base)
              end
      | _, _ => Normal Null
      end
  end.

End Profiles.

(** ** packages/gateway/src/http-bridge.ts, the variant with the license gate *)

Module HttpBridge.

(** The data given to [sendJson]. *)
Inductive Payload : Type :=
| ErrorPayload (error : string)
| ScanPayload (result : ScanResult).

(** [sendJson(res, status, data)] *)
Record Sent : Type := mkSent {
  status : Z;
  payload : Payload;
}.

(** What [JSON.parse(rawBody)] evaluates to, as far as the handler looks
    at it. *)
Record ScanBody : Type := mkScanBody {
  directory : option string;
  files : option (list string);
  scanners : option (list string);
  target_url : option string;
}.

Inductive Parsed : Type :=
| ParsedNull
| ParsedPrimitive (is_truthy : bool)
| ParsedObject (b : ScanBody).

(** The request as the handler meets it: [readBody(req)] is rejected when
    the body exceeds [MAX_BODY_SIZE] or the stream fails; [JSON.parse]
    throws on text that is not JSON. *)
Record Request : Type := mkRequest {
  read_body : Result string;
  parse : string → Result Parsed;
}.

(** Everything the handler reads from outside. *)
Record World : Type := mkWorld {
  license_fetch : License.Fetch;
  scanner_fetch : ScannerClient.Fetch;
  now : Z;          (* [Date.now()] in the cache test of [validate] *)
  stored_at : Z;    (* [Date.now()] when [validate] writes the cache *)
  start : Z;        (* [Date.now()] at the start of [scanAll] *)
  finish : Z;       (* [Date.now()] at its end *)
  now_iso : string;
  client_iso : string → string;
}.

(** How the [try]/[catch] around [licenseClient.validate] ends. *)
Inductive Gate : Type :=
| Rejected (c : License.LicenseClient)   (* [sendJson(res, 403, ...); return] *)
| Allowed (c : License.LicenseClient)    (* the verdict is valid *)
| Offline.                               (* the [catch] branch: scan in offline mode *)

Definition license_gate (w : World) (LICENSE_KEY : string) (c : License.LicenseClient) : Gate :=
  match License.validate (license_fetch w) (now w) (stored_at w) c LICENSE_KEY with
  | Normal validated =>
      if negb (License.valid (License.verdict validated))
      then Rejected (License.client validated)
      else Allowed (License.client validated)
  | Throw _ => Offline
  end.

(** [{ name: profile.name, rules: profile.rules }] of the active profile. *)
Definition profile_rules (active : Read Value) : ProfileRules :=
  match active with
  | Own (VObj fields) =>
      {| Common.name := match get "name" fields with Some (VStr s) => s | _ => "" end;
         Common.rules := match get "rules" fields with Some v => v | None => VNull end |}
  | _ => {| Common.name := ""; Common.rules := VNull |}
  end.

(** [x || y] on an optional string. *)
Definition or_else (x : option string) (y : string) : string :=
  match x with
  | Some s => if String.eqb s "" then y else s
  | None => y
  end.

(** The handler from [readBody] on, inside the outer [try]. *)
Definition scan_after_gate (w : World) (projectDir : string)
    (profileManager : Profiles.ProfileManager) (router : Router.Router)
    (req : Request) : Result Sent :=
  match read_body req with
  | Throw _ => Normal {| status := 413; payload := ErrorPayload "Request body too large" |}
  | Normal rawBody =>
      match parse req rawBody with
      | Throw _ => Normal {| status := 400; payload := ErrorPayload "Invalid JSON in request body" |}
      | Normal (ParsedPrimitive true) =>
          Normal {| status := 400; payload := ErrorPayload "Request body must be a JSON object" |}
      | Normal ParsedNull =>
          Throw (ErrorObject "Cannot read properties of null (reading 'directory')")
      | Normal parsed =>
          let body := match parsed with
                      | ParsedObject b => b
                      | _ => {| directory := None; files := None; scanners := None; target_url := None |}
                      end in
          let dir := or_else (directory body) projectDir in
          let profile := Profiles.getActive profileManager in
          let requestedScanners : option (gset string) :=
            match scanners body with
            | Some (n :: ns) => Some (list_to_set (n :: ns))
            | _ => None
            end in
          let files := match files body with
                       | Some fs => (fun f => {| path := f; content := None |}) <$> fs
                       | None => [ {| path := dir; content := None |} ]
                       end in
          result ← Router.scanAll (scanner_fetch w) (start w) (finish w) (now_iso w)
                     (client_iso w) router
                     {| Common.files := files;
                        Common.profile := profile_rules profile;
                        Common.context := {| language := None; framework := None;
                                             rootDir := Some dir;
                                             Common.target_url := target_url body |} |}
                     requestedScanners;
          Normal {| status := 200; payload := ScanPayload result |}
      end
  end.

(** The branch [req.method === 'POST' && req.url === '/api/scan'] with
    the outer [catch], which answers 500.  The usage report sent after the
    scan is fire-and-forget and has no part in the response.  The result
    is the response and the license client afterwards. *)
Definition post_api_scan (w : World) (projectDir LICENSE_KEY : string)
    (licenseClient : License.LicenseClient)
    (profileManager : Profiles.ProfileManager) (router : Router.Router)
    (req : Request) : Sent * License.LicenseClient :=
  let after c :=
    match scan_after_gate w projectDir profileManager router req with
    | Normal sent => (sent, c)
    | Throw _ => ({| status := 500; payload := ErrorPayload "Internal server error" |}, c)
    end in
  match license_gate w LICENSE_KEY licenseClient with
  | Rejected c =>
      ({| status := 403;
          payload := ErrorPayload
            "Invalid or expired license key. Visit https://safeweave.dev to get a valid key." |}, c)
  | Allowed c => after c
  | Offline => after licenseClient
  end.

Definition MAX_BODY_SIZE : Z := 5 * 1024 * 1024.

(** How the request stream finishes: the [end] event or the [error] event. *)
Inductive StreamEnd : Type :=
| Ends
| Fails (e : Thrown).

(** The [data] handler of [readBody], chunk after chunk: [totalSize] and
    [chunks] are the two variables it updates.  A chunk is a buffer of
    bytes, here the string of its bytes. *)
Fixpoint readBody_from (totalSize : Z) (chunks : list string) (incoming : list string)
    (ending : StreamEnd) : Result string :=
  match incoming with
  | [] =>
      match ending with
      | Ends => Normal (String.concat "" chunks)
      | Fails e => Throw e
      end
  | chunk :: rest =>
      let totalSize := totalSize + Z.of_nat (String.length chunk) in
      if totalSize >? MAX_BODY_SIZE
      then Throw (ErrorObject "Request body too large")
      else readBody_from totalSize (chunks ++ [chunk]) rest ending
  end.

(** [readBody(req)] for a request whose body arrives as [incoming]. *)
Definition readBody (incoming : list string) (ending : StreamEnd) : Result string :=
  readBody_from 0 [] incoming ending.

End HttpBridge.

(** ** packages/gateway/src/server.ts *)

Module Server.

Definition severity_name (s : Severity) : string :=
  match s with
  | critical => "critical"
  | high => "high"
  | medium => "medium"
  | low => "low"
  | info => "info"
  end.

(** [const weights: Record<Severity, number>] *)
Definition weights (s : Severity) : Z :=
  match s with
  | critical => 25
  | high => 15
  | medium => 8
  | low => 3
  | info => 0
  end.

(** [x || 0] on a number *)
Definition or_zero (x : Z) : Z := if x =? 0 then 0 else x.

Record Score : Type := mkScore {
  score : Z;
  status : string;
  breakdown : list (string * Z);
}.

(** The [for] loop of [calculateScore] over [(deductions, breakdown)]. *)
Definition tally (findings : list Finding) : Z * list (string * Z) :=
  foldl (fun acc f =>
           let '(deductions, breakdown) := acc in
           (deductions + or_zero (weights (severity f)),
            Js.set (severity_name (severity f))
              (match get (severity_name (severity f)) breakdown with
               | Some n => or_zero n
               | None => 0
               end + 1)
              breakdown))
        (0, []) findings.

(** [calculateScore(findings)], the body of the [get_security_score] tool. *)
Definition calculateScore (findings : list Finding) : Score :=
  match findings with
  | [] => {| score := 100; status := "no_findings"; breakdown := [] |}
  | _ :: _ =>
      let '(deductions, breakdown) := tally findings in
      let score := Z.max 0 (100 - deductions) in
      let status := if score >=? 80 then "good"
                    else if score >=? 50 then "needs_attention"
                    else "critical" in
      {| score := score; status := status; breakdown := breakdown |}
  end.

(** [s.slice(n)] *)
Fixpoint slice (n : nat) (s : string) : string :=
  match n, s with
  | O, _ => s
  | S n', String _ s' => slice n' s'
  | S _, EmptyString => EmptyString
  end.

(** [toContainerPath(hostPath)].  [SCAN_MOUNT] and [SCAN_DIR] come from the
    environment; [existsSync] is the file system's answer. *)
Definition toContainerPath (SCAN_MOUNT SCAN_DIR : string) (existsSync : string → bool)
    (hostPath : string) : string :=
  if String.prefix (SCAN_MOUNT +:+ "/") hostPath || String.eqb hostPath SCAN_MOUNT
  then hostPath
  else if String.prefix (SCAN_DIR +:+ "/") hostPath
  then SCAN_MOUNT +:+ slice (String.length SCAN_DIR) hostPath
  else
    let translated := SCAN_MOUNT +:+ hostPath in
    if existsSync translated then translated else hostPath.

(** [summarizeFindings(findings)] *)
Record Summary : Type := mkSummary {
  total : Z;
  by_severity : list (string * Z);
}.

Definition summarizeFindings (findings : list Finding) : Summary :=
  {| total := Z.of_nat (length findings);
     by_severity :=
       foldl (fun by_severity f =>
                Js.set (severity_name (severity f))
                  (match get (severity_name (severity f)) by_severity with
                   | Some n => or_zero n
                   | None => 0
                   end + 1)
                  by_severity)
             [] findings |}.

(** [s.includes(sub)] *)
Fixpoint includes (s sub : string) : bool :=
  String.prefix sub s
  || match s with
     | EmptyString => false
     | String _ s' => includes s' sub
     end.

(** A parameter of a tool call is used when it is present and not empty
    ([if (params.severity)]). *)
Definition given (param : option string) : option string :=
  match param with
  | Some p => if String.eqb p "" then None else Some p
  | None => None
  end.

(** The [get_findings] tool: [{ findings: filtered, total: filtered.length }]. *)
Definition get_findings (lastFindings : list Finding) (severity_param file_param : option string)
    : list Finding * Z :=
  let filtered := lastFindings in
  let filtered :=
    match given severity_param with
    | Some sev => List.filter (fun f => String.eqb (severity_name (severity f)) sev) filtered
    | None => filtered
    end in
  let filtered :=
    match given file_param with
    | Some sub => List.filter (fun f => includes (file f) sub) filtered
    | None => filtered
    end in
  (filtered, Z.of_nat (length filtered)).

(** The [suggest_fix] tool: the finding it reports on, or [None] for the
    answer [Finding not found]. *)
Definition suggest_fix (lastFindings : list Finding) (finding_id_param : string)
    : option Finding :=
  List.find (fun f => String.eqb (finding_id f) finding_id_param) lastFindings.

(** What [collectFiles] meets in a directory.  A directory entry carries
    what [readdirSync] gives for it ([None] when it throws), a file entry
    what [statSync(...).size] and [readFileSync] give ([None] when they
    throw); anything else (link, socket) is neither. *)
Inductive Entry : Type :=
| EDir (name : string) (listing : option (list Entry))
| EFile (name : string) (size : option Z) (content : option string)
| EOther (name : string).

Definition SOURCE_EXTS : list string :=
  [ ".ts"; ".tsx"; ".js"; ".jsx"; ".mjs"; ".cjs";
    ".py"; ".java"; ".go"; ".rb"; ".php"; ".rs";
    ".c"; ".cpp"; ".h"; ".hpp"; ".cs"; ".swift";
    ".yaml"; ".yml"; ".json"; ".toml"; ".xml";
    ".tf"; ".hcl"; ".dockerfile";
    ".sh"; ".bash"; ".zsh" ].

(** The directories [walk] does not enter. *)
Definition skipped_directory (name : string) : bool :=
  String.eqb name "node_modules" || String.eqb name ".git" || String.eqb name "dist"
  || String.eqb name "__pycache__" || String.eqb name "vendor".

(** The [for] loop of [walk] over the entries of a directory; [visit] is
    what the loop does with one entry. *)
Definition walk_loop (maxFiles : nat)
    (visit : Entry → list (string * string) → list (string * string))
    : list Entry → list (string * string) → list (string * string) :=
  fix loop entries files :=
    match entries with
    | [] => files
    | entry :: rest =>
        if (maxFiles <=? length files)%nat then files
        else loop rest (visit entry files)
    end.

(** The body of [walk(d)] once [readdirSync(d)] is known. *)
Definition walk_body (maxFiles : nat)
    (visit : Entry → list (string * string) → list (string * string))
    (listing : option (list Entry)) (files : list (string * string))
    : list (string * string) :=
  if (maxFiles <=? length files)%nat then files
  else
    match listing with
    | None => files
    | Some entries => walk_loop maxFiles visit entries files
    end.

(** One turn of the loop, for an entry of directory [d].  [join], [extname]
    and [toLowerCase] are the library functions of the same names. *)
Fixpoint visit (join : string → string → string) (extname toLowerCase : string → string)
    (maxFiles : nat) (d : string) (entry : Entry) (files : list (string * string))
    {struct entry} : list (string * string) :=
  let fullPath := join d
                    match entry with
                    | EDir name _ | EFile name _ _ | EOther name => name
                    end in
  match entry with
  | EDir name listing =>
      if skipped_directory name then files
      else walk_body maxFiles (visit join extname toLowerCase maxFiles fullPath) listing files
  | EFile name size content =>
      let ext := toLowerCase (extname name) in
      let basename := toLowerCase name in
      if bool_decide (ext ∈ SOURCE_EXTS) || String.eqb basename "dockerfile"
         || String.eqb basename "makefile"
      then
        match size with
        | None => files
        | Some bytes =>
            if bytes >? 1024 * 1024 then files
            else
              match content with
              | None => files
              | Some text => files ++ [(fullPath, text)]
              end
        end
      else files
  | EOther _ => files
  end.

(** [collectFiles(dir, maxFiles)], for a directory whose listing is
    [listing]. *)
Definition collectFiles (join : string → string → string)
    (extname toLowerCase : string → string) (dir : string) (listing : option (list Entry))
    (maxFiles : nat) : list (string * string) :=
  walk_body maxFiles (visit join extname toLowerCase maxFiles dir) listing [].

End Server.

(** ** packages/common/src/schemas.ts *)

Module Schemas.

Record ValidationResult : Type := mkValidationResult {
  valid : bool;
  errors : list string;
}.

Definition VALID_SEVERITIES : list string :=
  ["critical"; "high"; "medium"; "low"; "info"].

(** [!input || typeof input !== 'object'] fails exactly for objects and
    arrays. *)
Definition is_object (input : Value) : bool :=
  match input with
  | VObj _ | VArr _ => true
  | _ => false
  end.

(** [obj.k] for the property names the validators read.  None of them is a
    member of [Object.prototype] or [Array.prototype], so the read finds an
    own property of an object and nothing on an array. *)
Definition field (k : string) (obj : Value) : option Value :=
  match obj with
  | VObj fields => get k fields
  | _ => None
  end.

(** [typeof v !== 'string' || v.length === 0] *)
Definition not_non_empty_string (v : option Value) : bool :=
  match v with
  | Some (VStr s) => String.eqb s ""
  | _ => true
  end.

(** [VALID_SEVERITIES.includes(v)] *)
Definition valid_severity (v : option Value) : bool :=
  match v with
  | Some (VStr s) => bool_decide (s ∈ VALID_SEVERITIES)
  | _ => false
  end.

(** [if (test) errors.push(message)] *)
Definition push_if (test : bool) (message : string) (errors : list string) : list string :=
  if test then errors ++ [message] else errors.

(** [validateFinding(input)] *)
Definition validateFinding (input : Value) : ValidationResult :=
  if negb (is_object input)
  then {| valid := false; errors := ["Finding must be an object"] |}
  else
    let errors := [] in
    let errors := push_if (not_non_empty_string (field "id" input))
                    "id is required and must be a non-empty string" errors in
    let errors := push_if (negb (valid_severity (field "severity" input)))
                    ("severity must be one of: " +:+ join ", " VALID_SEVERITIES) errors in
    let errors := push_if (not_non_empty_string (field "title" input))
                    "title is required and must be a non-empty string" errors in
    let errors := push_if (not_non_empty_string (field "description" input))
                    "description is required and must be a non-empty string" errors in
    let errors := push_if (not_non_empty_string (field "file" input))
                    "file is required and must be a non-empty string" errors in
    let errors := push_if (not_non_empty_string (field "remediation" input))
                    "remediation is required and must be a non-empty string" errors in
    {| valid := bool_decide (errors = []); errors := errors |}.

(** [!Array.isArray(v) || v.length === 0] *)
Definition not_non_empty_array (v : option Value) : bool :=
  match v with
  | Some (VArr (_ :: _)) => false
  | _ => true
  end.

(** [!v || typeof v !== 'object'] *)
Definition not_an_object (v : option Value) : bool :=
  match v with
  | Some w => negb (is_object w)
  | None => true
  end.

(** [validateScanRequest(input)] *)
Definition validateScanRequest (input : Value) : ValidationResult :=
  if negb (is_object input)
  then {| valid := false; errors := ["ScanRequest must be an object"] |}
  else
    let errors := [] in
    let errors := push_if (not_non_empty_array (field "files" input))
                    "files must be a non-empty array" errors in
    let errors := push_if (not_an_object (field "profile" input))
                    "profile is required and must be an object" errors in
    let errors := push_if (not_an_object (field "context" input))
                    "context is required and must be an object" errors in
    {| valid := bool_decide (errors = []); errors := errors |}.

End Schemas.

(** ** Notions the properties are stated with *)

Module Spec.

(** The endpoint a client posts to. *)
Definition scan_url (c : ScannerClient.ScannerClient) : string :=
  ScannerClient.baseUrl c +:+ "/scan".

(** The RPC of client [c] fails, for [reason]: a network or transport
    failure, a status that is not a success, or a body that is not JSON. *)
Inductive rpc_failure (c : ScannerClient.ScannerClient)
    : Result (Response ScanResult) → string → Prop :=
| transport_failure e :
    rpc_failure c (Throw e) (error_message e)
| bad_status res :
    ok res = false →
    rpc_failure c (Normal res)
      ("Scanner " +:+ ScannerClient.name c +:+ " returned " +:+ pretty (Js.status res))
| malformed_body res e :
    ok res = true → body res = BodyInvalid e →
    rpc_failure c (Normal res) (error_message e).

(** The RPC succeeds with the result [r]. *)
Definition rpc_success (outcome : Result (Response ScanResult)) (r : ScanResult) : Prop :=
  ∃ res, outcome = Normal res ∧ ok res = true ∧ body res = BodyValue r.

(** The warning a degraded result carries. *)
Definition unavailable (name reason : string) : string :=
  "Scanner '" +:+ name +:+ "' unavailable: " +:+ reason.

(** A warning names backend [name] as unavailable. *)
Definition names_backend (name : string) (w : string) : bool :=
  String.prefix ("Scanner '" +:+ name +:+ "' unavailable: ") w.

(** The warnings a list of results reports, in order. *)
Definition own_warnings (rs : list ScanResult) : list string :=
  concat ((fun r => default [] (warnings (metadata r))) <$> rs).



(** Follows the words of the specification: an object-valued field of
    the override is merged recursively with an object-valued field of the
    base; an array- or scalar-valued field replaces the base outright, and
    so does an object where the base has no object. *)
Definition merged_field (base : option Value) (override : Value) : Value :=
  match override, base with
  | VObj o, Some (VObj b) => VObj (Profiles.deepMerge b o)
  | _, _ => override
  end.

(** The own properties of an object. *)
Definition fields_of (v : Value) : list (string * Value) :=
  match v with
  | VObj fields => fields
  | _ => []
  end.

(** [v.k1.k2...]: a chain of property reads. *)
Fixpoint path (ks : list string) (v : Value) : option Value :=
  match ks with
  | [] => Some v
  | k :: ks =>
      match v with
      | VObj fields =>
          match get k fields with
          | Some v' => path ks v'
          | None => None
          end
      | _ => None
      end
  end.

(** Sum of the per-finding severity weights critical=25, high=15,
    medium=8, low=3, info=0. *)
Definition severity_weight (s : Severity) : Z :=
  match s with
  | critical => 25 | high => 15 | medium => 8 | low => 3 | info => 0
  end.

Definition total_weight (fs : list Finding) : Z :=
  foldr (fun f acc => severity_weight (severity f) + acc) 0 fs.

(** The object a finding is on the wire ([JSON.stringify] of a [Finding]):
    the mandatory fields, and the optional ones that are present. *)
Definition optional (k : string) (v : option Value) : list (string * Value) :=
  match v with
  | Some w => [(k, w)]
  | None => []
  end.

Definition finding_to_value (f : Finding) : Value :=
  VObj ([ ("id", VStr (finding_id f));
          ("severity", VStr (Server.severity_name (severity f)));
          ("title", VStr (title f));
          ("description", VStr (description f));
          ("file", VStr (file f)) ]
        ++ optional "line" (VNum <$> line f)
        ++ optional "cwe" (VStr <$> cwe f)
        ++ optional "compliance" ((fun cs => VArr (VStr <$> cs)) <$> compliance f)
        ++ [ ("remediation", VStr (remediation f)) ]
        ++ optional "code_snippet" (VStr <$> code_snippet f)
        ++ optional "fix_snippet" (VStr <$> fix_snippet f)).

(** The number of findings of severity [s]. *)
Definition count_severity (s : Severity) (fs : list Finding) : Z :=
  Z.of_nat (length (List.filter (fun f => bool_decide (severity f = s)) fs)).

(** Whether the probe of client [c] finds it healthy. *)
Definition healthy (probe : ScannerClient.Probe) (c : ScannerClient.ScannerClient) : bool :=
  match probe (ScannerClient.baseUrl c +:+ "/health") with
  | Normal response => ok response
  | Throw _ => false
  end.

(** The client the router's constructor builds for a configuration entry. *)
Definition client_of (name : string) (sc : Router.ScannerConfig) : ScannerClient.ScannerClient :=
  ScannerClient.mkScannerClient
    ("http://" +:+ Router.host sc +:+ ":" +:+ pretty (Router.port sc)) name.

(** Every verdict the license cache holds is a valid one. *)
Definition cache_valid (c : License.LicenseClient) : Prop :=
  ∀ k entry, License.cache c !! k = Some entry → License.valid (License.result entry) = true.

(** The number of bytes of a request body that arrives in chunks. *)
Definition body_size (incoming : list string) : Z :=
  foldr (fun chunk acc => Z.of_nat (String.length chunk) + acc) 0 incoming.

(** [e] is [root] or lies below it, through directories that can be
    listed and that the walk does not skip. *)
Inductive reaches : Server.Entry → Server.Entry → Prop :=
| reaches_here e : reaches e e
| reaches_below name entries child e :
    Server.skipped_directory name = false →
    child ∈ entries →
    reaches child e →
    reaches (Server.EDir name (Some entries)) e.

(** The name of a file the walk reads: a source extension, or the base name
    [dockerfile] or [makefile], in any letter case. *)
Definition source_name (extname toLowerCase : string → string) (name : string) : bool :=
  bool_decide (toLowerCase (extname name) ∈ Server.SOURCE_EXTS)
  || String.eqb (toLowerCase name) "dockerfile"
  || String.eqb (toLowerCase name) "makefile".

End Spec.

(** ** Concrete inputs *)

Module Examples.

Definition request : ScanRequest :=
  {| files := [ {| path := "x.js"; content := Some "eval(input)" |} ];
     profile := {| Common.name := "standard"; rules := VObj [] |};
     context := {| language := None; framework := None; rootDir := None;
                   target_url := None |} |}.

Definition finding (id file : string) (line : option Z) (cwe : option string)
    (title : string) : Finding :=
  {| finding_id := id; severity := high; title := title; description := "d";
     file := file; line := line; cwe := cwe; compliance := None;
     remediation := "r"; code_snippet := None; fix_snippet := None |}.

Definition finding_of_severity (s : Severity) : Finding :=
  {| finding_id := "F"; severity := s; title := "t"; description := "d";
     file := "f"; line := None; cwe := None; compliance := None;
     remediation := "r"; code_snippet := None; fix_snippet := None |}.

Definition info_only : list Finding :=
  [finding_of_severity info; finding_of_severity info].

(** The same issue reported by two backends. *)
Definition sqli_sast : Finding := finding "SAST-1" "a.js" (Some 10) (Some "CWE-89") "SQL injection".
Definition sqli_dast : Finding := finding "DAST-7" "a.js" (Some 10) (Some "CWE-89") "Injection".

(** Two findings that differ in file, in line and in cwe, whose key
    strings are both [a:1:2:b]. *)
Definition colon_left : Finding := finding "SAST-2" "a" (Some 1) (Some "2:b") "t".

Definition config : list (string * Router.ScannerConfig) :=
  [ ("sast", Router.mkScannerConfig true "127.0.0.1" 9001);
    ("deps", Router.mkScannerConfig true "127.0.0.1" 9002);
    ("dast", Router.mkScannerConfig false "127.0.0.1" 9006) ].

Definition router : Router.Router := Router.constructor config.

Definition result_of (scanner : string) (fs : list Finding) (ws : option (list string))
    : ScanResult :=
  {| findings := fs;
     metadata := {| scanner := scanner; version := "1.0.0"; duration_ms := 12;
                    files_scanned := 1; timestamp := "2025-01-01T00:00:00.000Z";
                    warnings := ws |} |}.

(** No backend can be reached. *)
Definition all_down : ScannerClient.Fetch :=
  fun _ _ => Throw (ErrorObject "fetch failed").

Definition sast_client : ScannerClient.ScannerClient :=
  ScannerClient.mkScannerClient "http://127.0.0.1:9001" "sast".
Definition deps_client : ScannerClient.ScannerClient :=
  ScannerClient.mkScannerClient "http://127.0.0.1:9002" "deps".

(** What [deps] answers when it has a warning about [sast] of its own. *)
Definition deps_relayed : ScanResult :=
  result_of "deps" [sqli_dast] (Some ["Scanner 'sast' unavailable: upstream timeout"]).

(** What [deps] answers when it has no warning. *)
Definition deps_plain : ScanResult := result_of "deps" [sqli_dast] None.

(** [sast] cannot be reached and [deps] answers [answer]. *)
Definition sast_down (answer : ScanResult) : ScannerClient.Fetch :=
  fun url _ =>
    if String.eqb url "http://127.0.0.1:9002/scan"
    then Normal (mkResponse 200 (BodyValue answer))
    else Throw (ErrorObject "fetch failed").

(** [.safeweave/profile.yaml] with [extends: standard] and
    [rules: {secrets: {enabled: false}}]. *)
Definition secrets_off : Value :=
  VObj [ ("extends", VStr "standard");
         ("rules", VObj [("secrets", VObj [("enabled", VBool false)])]) ].

(** The [standard] profile with the name [custom] and secrets detection
    switched off. *)
Definition standard_secrets_off : Value :=
  Profiles.make_profile "custom"
    "Standard security profile — OWASP Top 10, common CVEs, secrets detection"
    "high" "medium"
    [ ("sast", VObj [("enabled", VBool true);
                     ("rulesets", Profiles.strings ["owasp-top-10"])]);
      ("dependencies", VObj [("enabled", VBool true); ("max_cvss_score", VNum 7);
                             ("require_lockfile", VBool true)]);
      ("secrets", VObj [("enabled", VBool false)]) ].

(** The license authority: a valid verdict, an invalid verdict, no answer. *)
Definition pro_plan : License.LicenseValidation :=
  {| License.valid := true; License.plan := Some "pro";
     License.features := ["sast"; "deps"]; License.expires_at := None |}.

Definition license_valid : License.Fetch :=
  fun _ _ => Normal (mkResponse 200 (BodyValue pro_plan)).

Definition license_down : License.Fetch :=
  fun _ _ => Throw (ErrorObject "fetch failed").

Definition licenseClient : License.LicenseClient :=
  License.constructor "https://license.safeweave.dev".

(** A well-formed [POST /api/scan] request with body [{}]. *)
Definition post_scan : HttpBridge.Request :=
  {| HttpBridge.read_body := Normal "{}";
     HttpBridge.parse := fun _ =>
       Normal (HttpBridge.ParsedObject
                 {| HttpBridge.directory := None; HttpBridge.files := None;
                    HttpBridge.scanners := None; HttpBridge.target_url := None |}) |}.

(** Every scanner answers; the license server does not. *)
Definition offline_world : HttpBridge.World :=
  {| HttpBridge.license_fetch := license_down;
     HttpBridge.scanner_fetch :=
       fun _ _ => Normal (mkResponse 200 (BodyValue deps_plain));
     HttpBridge.now := 1000;
     HttpBridge.stored_at := 1005;
     HttpBridge.start := 1010;
     HttpBridge.finish := 1020;
     HttpBridge.now_iso := "2025-01-01T00:00:00.000Z";
     HttpBridge.client_iso := fun _ => "2025-01-01T00:00:00.000Z" |}.



(** A project directory: one source file, one file above 1 MiB, and a
    [node_modules] directory. *)
Definition project_tree : list Server.Entry :=
  [ Server.EDir "src" (Some [ Server.EFile "a.js" (Some 10) (Some "eval(input)");
                              Server.EFile "big.js" (Some 2000000) (Some "...") ]);
    Server.EDir "node_modules" (Some [ Server.EFile "dep.js" (Some 10) (Some "dep") ]) ].

Definition join_paths (d name : string) : string := d +:+ "/" +:+ name.

End Examples.

(** * Properties *)

(** ** ScannerClient *)

Section scanner_client.
Variables (fetch : ScannerClient.Fetch) (now_iso : string).
Variables (c : ScannerClient.ScannerClient) (request : ScanRequest).

Lemma scan_failure reason :
  Spec.rpc_failure c (fetch (Spec.scan_url c) request) reason →
  ScannerClient.scan fetch now_iso c request
  = Normal (ScannerClient.degraded c now_iso reason).
Proof.
  unfold ScannerClient.scan, Spec.scan_url.
  inversion 1 as [e He | res Hok He | res e Hok Hbody He]; simpl.
  - reflexivity.
  - rewrite Hok. reflexivity.
  - rewrite Hok. unfold json. rewrite Hbody. reflexivity.
Qed.

Lemma scan_success r :
  Spec.rpc_success (fetch (Spec.scan_url c) request) r →
  ScannerClient.scan fetch now_iso c request = Normal r.
Proof.
  intros (res & Hres & Hok & Hbody).
  unfold ScannerClient.scan. unfold Spec.scan_url in Hres. rewrite Hres. simpl.
  rewrite Hok. unfold json. rewrite Hbody. reflexivity.
Qed.

Lemma scan_total : ∃ r, ScannerClient.scan fetch now_iso c request = Normal r.
Proof.
  unfold ScannerClient.scan.
  destruct (fetch _ request) as [res | e]; simpl; [| eauto].
  destruct (negb (ok res)); simpl; [eauto |].
  unfold json. destruct (body res); simpl; eauto.
Qed.

End scanner_client.

(** C4.  [ScannerClient.scan] never raises: whatever the network does, the
    call completes normally with a result; and when the RPC fails (transport
    failure, status that is not a success, or body that is not JSON), that
    result has no findings and its [metadata.warnings] is the single string
    [Scanner '<name>' unavailable: <reason>]. *)
Theorem scan_never_raises (fetch : ScannerClient.Fetch) (now_iso : string)
    (c : ScannerClient.ScannerClient) (request : ScanRequest) :
  (∃ r, ScannerClient.scan fetch now_iso c request = Normal r)
  ∧ ∀ reason,
      Spec.rpc_failure c (fetch (Spec.scan_url c) request) reason →
      ∃ r, ScannerClient.scan fetch now_iso c request = Normal r
           ∧ findings r = []
           ∧ warnings (metadata r)
             = Some ["Scanner '" +:+ ScannerClient.name c +:+ "' unavailable: " +:+ reason].
Proof.
  split; [apply scan_total |].
  intros reason Hfail. eexists. split; [by apply scan_failure |].
  split; reflexivity.
Qed.

(** ** Router: deduplication *)

Section dedup.
Implicit Types (seen : gset string) (l earlier later : list Finding).

Lemma filter_seen_app seen l1 l2 :
  Router.filter_seen seen (l1 ++ l2)
  = Router.filter_seen seen l1
    ++ Router.filter_seen (seen ∪ list_to_set (Router.dedup_key <$> l1)) l2.
Proof.
  revert seen. induction l1 as [| f l1 IH]; intros seen; simpl.
  - f_equal. set_solver.
  - case_decide as Hin.
    + rewrite IH. do 2 f_equal. set_solver.
    + simpl. rewrite IH. do 3 f_equal. set_solver.
Qed.

Lemma filter_seen_all_seen seen l :
  (∀ f, f ∈ l → Router.dedup_key f ∈ seen) → Router.filter_seen seen l = [].
Proof.
  induction l as [| f l IH]; intros Hall; simpl; [done |].
  rewrite decide_True; [| apply Hall; left].
  apply IH. intros g Hg. apply Hall. by right.
Qed.




End dedup.

(** C9.  Deduplication is idempotent: deduplicating a findings list
    concatenated with itself gives what deduplicating it once gives. *)
Theorem dedup_idempotent (l : list Finding) :
  Router.deduplicateFindings (l ++ l) = Router.deduplicateFindings l.
Proof.
  unfold Router.deduplicateFindings.
  rewrite filter_seen_app,
    (filter_seen_all_seen (∅ ∪ list_to_set (Router.dedup_key <$> l)) l).
  - apply app_nil_r.
  - intros f Hf. apply elem_of_union_r, elem_of_list_to_set, list_elem_of_fmap. eauto.
Qed.




Lemma scan_never_raises_witness :
  Spec.rpc_failure (ScannerClient.mkScannerClient "http://127.0.0.1:9001" "sast")
    (Examples.all_down "http://127.0.0.1:9001/scan" Examples.request) "fetch failed"
  ∧ ∃ r, ScannerClient.scan Examples.all_down "now"
           (ScannerClient.mkScannerClient "http://127.0.0.1:9001" "sast") Examples.request
         = Normal r
         ∧ findings r = []
         ∧ warnings (metadata r) = Some ["Scanner 'sast' unavailable: fetch failed"].
Proof.
  split.
  - exact (Spec.transport_failure _ (ErrorObject "fetch failed")).
  - apply (proj2 (scan_never_raises Examples.all_down "now"
                    (ScannerClient.mkScannerClient "http://127.0.0.1:9001" "sast")
                    Examples.request) "fetch failed").
    exact (Spec.transport_failure _ (ErrorObject "fetch failed")).
Defined.

(** ** Property lists *)

Section property_lists.
Context {V : Type}.
Implicit Types (o : list (string * V)) (k : string) (v : V).

Lemma get_set_eq k v o : get k (Js.set k v o) = Some v.
Proof.
  induction o as [| [k' v'] o IH]; simpl.
  - by rewrite String.eqb_refl.
  - destruct (String.eqb_spec k' k) as [-> | Hne]; simpl.
    + by rewrite String.eqb_refl.
    + destruct (String.eqb_spec k' k); [done | exact IH].
Qed.

Lemma get_set_ne k k' v o : k ≠ k' → get k (Js.set k' v o) = get k o.
Proof.
  intros Hne. induction o as [| [k1 v1] o IH]; simpl.
  - destruct (String.eqb_spec k' k); [congruence | done].
  - destruct (String.eqb_spec k1 k') as [-> | Hne1]; simpl.
    + destruct (String.eqb_spec k' k); [congruence | done].
    + destruct (String.eqb_spec k1 k); [done | exact IH].
Qed.

Lemma get_assign_ne k k' v o : k ≠ k' → get k (assign k' v o) = get k o.
Proof.
  intros Hne. unfold assign.
  destruct (get k' o); [by apply get_set_ne |].
  destruct (String.eqb k' "__proto__"); [done | by apply get_set_ne].
Qed.

Lemma get_assign_eq k v o : k ≠ "__proto__" → get k (assign k v o) = Some v.
Proof.
  intros Hne. unfold assign.
  destruct (get k o); [apply get_set_eq |].
  destruct (String.eqb_spec k "__proto__"); [done | apply get_set_eq].
Qed.

Lemma get_remove_eq k o : get k (remove k o) = None.
Proof.
  induction o as [| [k' v'] o IH]; simpl; [done |].
  destruct (String.eqb_spec k' k) as [-> | Hne]; simpl; [exact IH |].
  destruct (String.eqb_spec k' k); [done | exact IH].
Qed.

Lemma get_remove_ne k k' o : k ≠ k' → get k (remove k' o) = get k o.
Proof.
  intros Hne. induction o as [| [k1 v1] o IH]; simpl; [done |].
  destruct (String.eqb_spec k1 k') as [-> | Hne1]; simpl.
  - destruct (String.eqb_spec k' k); [congruence | exact IH].
  - destruct (String.eqb_spec k1 k); [done | exact IH].
Qed.

Lemma get_None_not_key k o : get k o = None ↔ k ∉ keys o.
Proof.
  unfold keys. induction o as [| [k' v'] o IH]; simpl.
  - split; [intros _; apply not_elem_of_nil | done].
  - rewrite not_elem_of_cons.
    destruct (String.eqb_spec k' k) as [-> | Hne]; [naive_solver |].
    rewrite IH. naive_solver.
Qed.

End property_lists.

(** ** Router: a backend that is not enabled *)

Section router_clients.
Implicit Types (scanners : list (string * Router.ScannerConfig)).

Lemma not_enabled_not_registered scanners m name :
  (∀ sc, (name, sc) ∈ scanners → Router.enabled sc = false) →
  get name (foldl Router.register m scanners) = get name m.
Proof.
  revert m. induction scanners as [| [n sc] scanners IH]; intros m Hoff; simpl; [done |].
  rewrite IH.
  - destruct (Router.enabled sc) eqn:Hen; [| done].
    apply get_set_ne. intros ->.
    rewrite (Hoff sc) in Hen; [done | left].
  - intros sc' Hin. apply Hoff. by right.
Qed.

End router_clients.

(** C8.  For every request, [scanWith] with a name that is not an enabled
    backend of the configuration completes normally (it does not raise) with
    a result that has no findings, [duration_ms] 0 and no warnings. *)
Theorem scanWith_not_enabled (fetch : ScannerClient.Fetch) (now_iso : string)
    (scanners : list (string * Router.ScannerConfig)) (name : string)
    (request : ScanRequest) :
  (∀ sc, (name, sc) ∈ scanners → Router.enabled sc = false) →
  ∃ r, Router.scanWith fetch now_iso (Router.constructor scanners) name request = Normal r
       ∧ findings r = []
       ∧ duration_ms (metadata r) = 0
       ∧ warnings (metadata r) = None.
Proof.
  intros Hoff. unfold Router.scanWith.
  unfold Router.constructor. simpl.
  rewrite (not_enabled_not_registered scanners [] name Hoff).
  simpl. eexists. split; [reflexivity |]. done.
Qed.

Lemma scanWith_not_enabled_witness :
  (∀ sc, ("dast", sc) ∈ Examples.config → Router.enabled sc = false)
  ∧ ∃ r, Router.scanWith Examples.all_down "now" Examples.router "dast" Examples.request
         = Normal r
         ∧ findings r = []
         ∧ duration_ms (metadata r) = 0
         ∧ warnings (metadata r) = None.
Proof.
  assert (∀ sc, ("dast", sc) ∈ Examples.config → Router.enabled sc = false) as Hoff.
  { intros sc Hin. unfold Examples.config in Hin.
    repeat (apply elem_of_cons in Hin as [Heq | Hin]; [by inversion Heq |]).
    by apply elem_of_nil in Hin. }
  split; [exact Hoff |].
  exact (scanWith_not_enabled Examples.all_down "now" Examples.config "dast"
           Examples.request Hoff).
Defined.

(** ** Server: the security score *)

Section score.
Implicit Types (findings : list Finding).

Lemma weights_or_zero s : Server.or_zero (Server.weights s) = Spec.severity_weight s.
Proof. by destruct s. Qed.

Lemma tally_deductions findings d b :
  (foldl (fun acc f =>
            let '(deductions, breakdown) := acc in
            (deductions + Server.or_zero (Server.weights (severity f)),
             Js.set (Server.severity_name (severity f))
               (match get (Server.severity_name (severity f)) breakdown with
                | Some n => Server.or_zero n
                | None => 0
                end + 1)
               breakdown))
         (d, b) findings).1
  = d + Spec.total_weight findings.
Proof.
  revert d b. induction findings as [| f findings IH]; intros d b; simpl; [lia |].
  rewrite IH, weights_or_zero. lia.
Qed.

Lemma total_weight_nonneg findings : 0 ≤ Spec.total_weight findings.
Proof.
  induction findings as [| f findings IH]; simpl; [done |].
  destruct (severity f); simpl; lia.
Qed.

Lemma total_weight_info findings :
  Forall (fun f => severity f = info) findings → Spec.total_weight findings = 0.
Proof. induction 1 as [| f findings Hf _ IH]; simpl; [done |]. rewrite Hf, IH. done. Qed.

Lemma calculateScore_score findings :
  Server.score (Server.calculateScore findings)
  = Z.max 0 (100 - Spec.total_weight findings).
Proof.
  destruct findings as [| f findings]; [done |].
  unfold Server.calculateScore, Server.tally.
  pose proof (tally_deductions (f :: findings) 0 []) as Hd.
  destruct (foldl _ _ _) as [deductions breakdown]. simpl in *.
  rewrite Hd. done.
Qed.

Lemma calculateScore_status f findings :
  Server.status (Server.calculateScore (f :: findings))
  = let score := Server.score (Server.calculateScore (f :: findings)) in
    if score >=? 80 then "good"
    else if score >=? 50 then "needs_attention" else "critical".
Proof.
  unfold Server.calculateScore, Server.tally.
  destruct (foldl _ _ _) as [deductions breakdown]. done.
Qed.

End score.

(** C10.  For every findings list the score of [get_security_score] is
    max(0, 100 - sum of the severity weights critical=25, high=15, medium=8,
    low=3, info=0), so it lies in [0, 100]; the empty list scores 100 with
    status [no_findings]; a list that is not empty has status [good] when the
    score is at least 80, [needs_attention] when it is at least 50 and below
    80, [critical] below 50; hence a non-empty list of info findings scores
    100 with status [good]. *)
Theorem security_score (findings : list Finding) :
  let result := Server.calculateScore findings in
  Server.score result = Z.max 0 (100 - Spec.total_weight findings)
  ∧ 0 ≤ Server.score result ≤ 100
  ∧ (findings = [] → Server.score result = 100 ∧ Server.status result = "no_findings")
  ∧ (findings ≠ [] →
       (80 ≤ Server.score result → Server.status result = "good")
       ∧ (50 ≤ Server.score result < 80 → Server.status result = "needs_attention")
       ∧ (Server.score result < 50 → Server.status result = "critical"))
  ∧ (findings ≠ [] → Forall (fun f => severity f = info) findings →
       Server.score result = 100 ∧ Server.status result = "good").
Proof.
  intros result. subst result.
  pose proof (total_weight_nonneg findings) as Hnonneg.
  pose proof (calculateScore_score findings) as Hscore.
  split; [exact Hscore |].
  split; [lia |].
  split; [by intros -> |].
  assert (findings ≠ [] →
          Server.status (Server.calculateScore findings)
          = if Server.score (Server.calculateScore findings) >=? 80 then "good"
            else if Server.score (Server.calculateScore findings) >=? 50
                 then "needs_attention" else "critical") as Hstatus.
  { destruct findings as [| f fs]; [done |]. intros _. apply calculateScore_status. }
  split.
  - intros Hne. rewrite (Hstatus Hne). repeat split; intros Hrange.
    + destruct (Z.geb_spec (Server.score (Server.calculateScore findings)) 80); [done | lia].
    + destruct (Z.geb_spec (Server.score (Server.calculateScore findings)) 80); [lia |].
      destruct (Z.geb_spec (Server.score (Server.calculateScore findings)) 50); [done | lia].
    + destruct (Z.geb_spec (Server.score (Server.calculateScore findings)) 80); [lia |].
      destruct (Z.geb_spec (Server.score (Server.calculateScore findings)) 50); [lia | done].
  - intros Hne Hinfo. rewrite (Hstatus Hne), Hscore, (total_weight_info findings Hinfo).
    done.
Qed.

Lemma security_score_witness :
  Examples.info_only ≠ [] ∧ Forall (fun f => severity f = info) Examples.info_only
  ∧ Server.score (Server.calculateScore Examples.info_only) = 100
  ∧ Server.status (Server.calculateScore Examples.info_only) = "good".
Proof.
  assert (Examples.info_only ≠ []) as Hne by done.
  assert (Forall (fun f => severity f = info) Examples.info_only) as Hinfo
    by (repeat constructor).
  split; [exact Hne |]. split; [exact Hinfo |].
  exact (proj2 (proj2 (proj2 (proj2 (security_score Examples.info_only)))) Hne Hinfo).
Defined.

(** ** Router: one backend down *)

Section scan_all.
Variables (fetch : ScannerClient.Fetch) (client_iso : string → string).
Variable (request : ScanRequest).

Let scan_entry (entry : string * ScannerClient.ScannerClient) : Result ScanResult :=
  ScannerClient.scan fetch (client_iso entry.1) entry.2 request.

Let succeeds (entry : string * ScannerClient.ScannerClient) (r : ScanResult) : Prop :=
  Spec.rpc_success (fetch (Spec.scan_url entry.2) request) r.

Lemma scans_succeed entries rs :
  Forall2 succeeds entries rs → map scan_entry entries = Normal <$> rs.
Proof.
  induction 1 as [| entry r entries rs Hr _ IH]; simpl; [done |].
  unfold scan_entry at 1. by rewrite (scan_success _ _ _ _ _ Hr), IH.
Qed.

Lemma collect_fulfilled acc rs :
  foldl Router.collect_step acc (Normal <$> rs)
  = (acc.1 ++ concat (findings <$> rs), acc.2 ++ Spec.own_warnings rs).
Proof.
  revert acc. induction rs as [| r rs IH]; intros [fs ws]; simpl.
  - unfold Spec.own_warnings. simpl. by rewrite !app_nil_r.
  - rewrite IH. unfold Spec.own_warnings. simpl.
    destruct (warnings (metadata r)); simpl; by rewrite <- ?app_assoc.
Qed.

End scan_all.

Lemma append_cons x (a b : string) : String x a +:+ b = String x (a +:+ b).
Proof. reflexivity. Qed.

Lemma append_assoc (a b c : string) : (a +:+ b) +:+ c = a +:+ b +:+ c.
Proof. induction a as [| x a IH]; [done |]. rewrite !append_cons. by f_equal. Qed.

Lemma prefix_append (p r : string) : String.prefix p (p +:+ r) = true.
Proof.
  induction p as [| a p IH]; [by destruct r |]. rewrite append_cons. simpl.
  destruct (Ascii.ascii_dec a a); [exact IH | done].
Qed.

Lemma names_backend_unavailable name reason :
  Spec.names_backend name (Spec.unavailable name reason) = true.
Proof.
  unfold Spec.names_backend, Spec.unavailable.
  replace ("Scanner '" +:+ name +:+ "' unavailable: " +:+ reason)
    with (("Scanner '" +:+ name +:+ "' unavailable: ") +:+ reason)
    by (by rewrite !append_assoc).
  apply prefix_append.
Qed.

(** C1, as the code has it.  When one dispatched backend's RPC fails and all
    other dispatched backends succeed, [scanAll] completes normally; the
    merged findings are the deduplicated concatenation of the succeeding
    backends' findings; and [metadata.warnings] is made of the warnings the
    succeeding backends report themselves, in dispatch order, with exactly
    one entry [Scanner '<name>' unavailable: <reason>] for the failed
    backend at its place.  So the entries naming the failed backend are
    that one and those the succeeding backends report themselves. *)
Theorem scanAll_one_backend_down (fetch : ScannerClient.Fetch) (start finish : Z)
    (now_iso : string) (client_iso : string → string) (r : Router.Router)
    (request : ScanRequest) (requestedScanners : option (gset string))
    (pre post : list (string * ScannerClient.ScannerClient))
    (n : string) (failed : ScannerClient.ScannerClient)
    (rs_pre rs_post : list ScanResult) (reason : string) :
  List.filter (Router.is_requested requestedScanners) (Router.clients r)
    = pre ++ (n, failed) :: post →
  Spec.rpc_failure failed (fetch (Spec.scan_url failed) request) reason →
  Forall2 (fun entry res => Spec.rpc_success (fetch (Spec.scan_url entry.2) request) res)
    pre rs_pre →
  Forall2 (fun entry res => Spec.rpc_success (fetch (Spec.scan_url entry.2) request) res)
    post rs_post →
  ∃ res ws,
    Router.scanAll fetch start finish now_iso client_iso r request requestedScanners
      = Normal res
    ∧ findings res = Router.deduplicateFindings (concat (findings <$> (rs_pre ++ rs_post)))
    ∧ warnings (metadata res) = Some ws
    ∧ ws = Spec.own_warnings rs_pre
           ++ [Spec.unavailable (ScannerClient.name failed) reason]
           ++ Spec.own_warnings rs_post
    ∧ length (List.filter (Spec.names_backend (ScannerClient.name failed)) ws)
      = S (length (List.filter (Spec.names_backend (ScannerClient.name failed))
                     (Spec.own_warnings (rs_pre ++ rs_post)))).
Proof.
  intros Hdispatched Hfail Hpre Hpost.
  unfold Router.scanAll, Router.collect. rewrite Hdispatched.
  rewrite map_app. simpl.
  rewrite (scans_succeed fetch client_iso request pre rs_pre Hpre).
  rewrite (scans_succeed fetch client_iso request post rs_post Hpost).
  rewrite (scan_failure _ _ _ _ _ Hfail).
  rewrite foldl_app, collect_fulfilled. simpl.
  rewrite collect_fulfilled. simpl.
  set (w := Spec.unavailable (ScannerClient.name failed) reason).
  change ("Scanner '" +:+ ScannerClient.name failed +:+ "' unavailable: " +:+ reason) with w.
  rewrite app_nil_r, <- concat_app, <- fmap_app.
  assert ((Spec.own_warnings rs_pre ++ [w]) ++ Spec.own_warnings rs_post
          = Spec.own_warnings rs_pre ++ [w] ++ Spec.own_warnings rs_post) as Hws
    by (by rewrite <- app_assoc).
  rewrite Hws.
  destruct (Spec.own_warnings rs_pre ++ [w] ++ Spec.own_warnings rs_post) as [| w0 ws0] eqn:Hall.
  { by destruct (Spec.own_warnings rs_pre). }
  eexists _, (w0 :: ws0). split; [reflexivity |].
  split; [reflexivity |]. split; [reflexivity |]. split; [symmetry; exact Hall |].
  rewrite <- Hall. unfold Spec.own_warnings at 3. rewrite fmap_app, concat_app.
  fold (Spec.own_warnings rs_pre). fold (Spec.own_warnings rs_post).
  rewrite !List.filter_app, !length_app. simpl.
  subst w. rewrite names_backend_unavailable. simpl. lia.
Qed.

(** C1, as the claim words it, fails: [sast] is down and [deps] succeeds,
    and the result [deps] returns carries a warning about [sast] of its own,
    which [scanAll] passes on; the merged warnings then hold two entries
    naming the failed backend, not exactly one. *)
Lemma scanAll_two_warnings_name_failed_backend :
  List.filter (Router.is_requested None) (Router.clients Examples.router)
    = [("sast", Examples.sast_client); ("deps", Examples.deps_client)]
  ∧ Spec.rpc_failure Examples.sast_client
      (Examples.sast_down Examples.deps_relayed (Spec.scan_url Examples.sast_client)
         Examples.request)
      "fetch failed"
  ∧ Spec.rpc_success
      (Examples.sast_down Examples.deps_relayed (Spec.scan_url Examples.deps_client)
         Examples.request)
      Examples.deps_relayed
  ∧ ∃ res,
      Router.scanAll (Examples.sast_down Examples.deps_relayed) 0 5 "now" (fun _ => "now")
        Examples.router Examples.request None = Normal res
      ∧ warnings (metadata res)
        = Some ["Scanner 'sast' unavailable: fetch failed";
                "Scanner 'sast' unavailable: upstream timeout"]
      ∧ length (List.filter (Spec.names_backend "sast")
                  (default [] (warnings (metadata res)))) = 2%nat.
Proof.
  split; [reflexivity |].
  split; [exact (Spec.transport_failure _ (ErrorObject "fetch failed")) |].
  split; [eexists; repeat split; reflexivity |].
  eexists. split; [by vm_compute |]. split; reflexivity.
Qed.

Lemma scanAll_one_backend_down_witness :
  List.filter (Router.is_requested None) (Router.clients Examples.router)
    = [] ++ ("sast", Examples.sast_client) :: [("deps", Examples.deps_client)]
  ∧ Spec.rpc_failure Examples.sast_client
      (Examples.sast_down Examples.deps_plain (Spec.scan_url Examples.sast_client)
         Examples.request)
      "fetch failed"
  ∧ ∃ res ws,
      Router.scanAll (Examples.sast_down Examples.deps_plain) 0 5 "now" (fun _ => "now")
        Examples.router Examples.request None = Normal res
      ∧ findings res
        = Router.deduplicateFindings (concat (findings <$> ([] ++ [Examples.deps_plain])))
      ∧ warnings (metadata res) = Some ws
      ∧ ws = Spec.own_warnings []
             ++ [Spec.unavailable "sast" "fetch failed"]
             ++ Spec.own_warnings [Examples.deps_plain]
      ∧ length (List.filter (Spec.names_backend "sast") ws)
        = S (length (List.filter (Spec.names_backend "sast")
                       (Spec.own_warnings ([] ++ [Examples.deps_plain])))).
Proof.
  assert (Spec.rpc_failure Examples.sast_client
            (Examples.sast_down Examples.deps_plain (Spec.scan_url Examples.sast_client)
               Examples.request)
            "fetch failed") as Hfail
    by exact (Spec.transport_failure _ (ErrorObject "fetch failed")).
  split; [reflexivity |]. split; [exact Hfail |].
  apply (scanAll_one_backend_down (Examples.sast_down Examples.deps_plain) 0 5 "now"
           (fun _ => "now") Examples.router Examples.request None
           [] [("deps", Examples.deps_client)] "sast" Examples.sast_client
           [] [Examples.deps_plain] "fetch failed").
  - reflexivity.
  - exact Hfail.
  - constructor.
  - constructor; [| constructor]. eexists. repeat split; reflexivity.
Defined.

(** ** License client *)

Section license.
Implicit Types (c : License.LicenseClient) (key : string) (fetch : License.Fetch).

Lemma answers_not_unreachable fetch c key v :
  License.answers fetch c key v → License.unreachable fetch c key → False.
Proof.
  intros (res & Hres & Hok & Hbody) [[e He] | (res' & Hres' & [Hbad | [e He]])];
    congruence.
Qed.

Lemma validate_remote_cases fetch stored_at c key :
  ∃ v,
    (License.valid v = true
     ∧ License.validate_remote fetch stored_at c key
       = Normal (v, License.with_cached c key v stored_at)
     ∧ License.answers fetch c key v)
    ∨ (License.valid v = false
       ∧ License.validate_remote fetch stored_at c key = Normal (v, c)
       ∧ (License.unreachable fetch c key → v = License.INVALID_RESULT)).
Proof.
  unfold License.validate_remote, License.unreachable, License.answers.
  destruct (fetch (License.validate_url c) key) as [res | e]; simpl.
  - destruct (ok res) eqn:Hok; simpl.
    + unfold json. destruct (body res) as [e | v] eqn:Hbody; simpl.
      * exists License.INVALID_RESULT. right. done.
      * destruct (License.valid v) eqn:Hvalid.
        -- exists v. left. split; [done |]. split; [done |]. by exists res.
        -- exists v. right. split; [done |]. split; [done |].
           intros [[e He] | (res' & [= <-] & [Hbad | [e He]])]; congruence.
    + exists License.INVALID_RESULT. right. done.
  - exists License.INVALID_RESULT. right. done.
Qed.

Lemma validate_miss fetch now stored_at c key :
  License.cache_live c key now = false →
  License.validate fetch now stored_at c key
  = ('(v, c') ← License.validate_remote fetch stored_at c key;
     Normal {| License.verdict := v; License.client := c';
               License.remote_calls := [License.validate_url c] |}).
Proof.
  unfold License.cache_live, License.validate.
  destruct (License.cache c !! key) as [cached |]; [| done].
  by intros ->.
Qed.

Lemma validate_hit fetch now stored_at c key cached :
  License.cache c !! key = Some cached → now < License.expiry cached →
  License.validate fetch now stored_at c key
  = Normal {| License.verdict := License.result cached; License.client := c;
              License.remote_calls := [] |}.
Proof.
  intros Hcached Hlive. unfold License.validate. rewrite Hcached.
  destruct (Z.gtb_spec (License.expiry cached) now); [done | lia].
Qed.

Lemma validate_goes_remote fetch now stored_at c key :
  License.cache_live c key now = false →
  ∃ v c', License.validate fetch now stored_at c key
          = Normal {| License.verdict := v; License.client := c';
                      License.remote_calls := [License.validate_url c] |}.
Proof.
  intros Hmiss. rewrite (validate_miss _ _ _ _ _ Hmiss).
  destruct (validate_remote_cases fetch stored_at c key)
    as [v [(_ & -> & _) | (_ & -> & _)]]; simpl; eauto.
Qed.


Lemma validate_never_raises fetch now stored_at c key :
  ∃ validated, License.validate fetch now stored_at c key = Normal validated.
Proof.
  destruct (License.cache_live c key now) eqn:Hlive.
  - unfold License.cache_live in Hlive. unfold License.validate.
    destruct (License.cache c !! key) as [cached |]; [| done].
    rewrite Hlive. eauto.
  - destruct (validate_goes_remote fetch now stored_at c key Hlive) as (v & c' & ->).
    eauto.
Qed.

End license.



(** ** HTTP bridge: the license gate *)

Section license_gate.
Variables (w : HttpBridge.World) (LICENSE_KEY : string) (c : License.LicenseClient).

(** [validate] never raises, so the [catch] branch of the gate, the one
    meant for an unreachable license server, is never taken. *)
Lemma license_gate_never_offline :
  HttpBridge.license_gate w LICENSE_KEY c ≠ HttpBridge.Offline.
Proof.
  unfold HttpBridge.license_gate.
  destruct (validate_never_raises (HttpBridge.license_fetch w) (HttpBridge.now w)
              (HttpBridge.stored_at w) c LICENSE_KEY) as [validated ->].
  by destruct (negb _).
Qed.

Lemma unreachable_license_server_rejects :
  License.cache_live c LICENSE_KEY (HttpBridge.now w) = false →
  License.unreachable (HttpBridge.license_fetch w) c LICENSE_KEY →
  HttpBridge.license_gate w LICENSE_KEY c = HttpBridge.Rejected c.
Proof.
  intros Hmiss Hun. unfold HttpBridge.license_gate.
  rewrite (validate_miss _ _ _ _ _ Hmiss).
  destruct (validate_remote_cases (HttpBridge.license_fetch w) (HttpBridge.stored_at w)
              c LICENSE_KEY)
    as [v [(_ & _ & Hanswers) | (Hinvalid & -> & _)]].
  - destruct (answers_not_unreachable _ _ _ _ Hanswers Hun).
  - simpl. by rewrite Hinvalid.
Qed.

Lemma unreachable_license_server_403 projectDir profileManager router req :
  License.cache_live c LICENSE_KEY (HttpBridge.now w) = false →
  License.unreachable (HttpBridge.license_fetch w) c LICENSE_KEY →
  HttpBridge.status
    (HttpBridge.post_api_scan w projectDir LICENSE_KEY c profileManager router req).1
  = 403.
Proof.
  intros Hmiss Hun. unfold HttpBridge.post_api_scan.
  by rewrite (unreachable_license_server_rejects Hmiss Hun).
Qed.

End license_gate.

(** C2, on the code.  The license server cannot be reached (the call is
    rejected with a network error) and nothing is cached; every scanner is
    up and the request is well formed.  [POST /api/scan] answers 403: the
    scan is rejected, not run in offline mode. *)
Theorem scan_rejected_when_license_server_unreachable :
  License.unreachable (HttpBridge.license_fetch Examples.offline_world)
    Examples.licenseClient "KEY"
  ∧ HttpBridge.post_api_scan Examples.offline_world "/project" "KEY"
      Examples.licenseClient (Profiles.constructor []) Examples.router Examples.post_scan
    = ({| HttpBridge.status := 403;
          HttpBridge.payload := HttpBridge.ErrorPayload
            "Invalid or expired license key. Visit https://safeweave.dev to get a valid key." |},
       Examples.licenseClient).
Proof.
  split.
  - left. by exists (ErrorObject "fetch failed").
  - reflexivity.
Qed.

(** ** Profile manager: the active profile *)

Section set_active.
Variable (pm : Profiles.ProfileManager).

(** A name that no read of [this.profiles] finds is refused, with a
    message that lists the registered names, and nothing is changed. *)
Lemma setActive_undefined name :
  read name (Profiles.profiles pm) = Undefined →
  Profiles.setActive pm name
  = Throw (ErrorObject ("Unknown profile: " +:+ name +:+ ". Available: "
                        +:+ join ", " (Profiles.listProfiles pm))).
Proof. intros Hread. unfold Profiles.setActive. by rewrite Hread. Qed.

(** A name that is not registered but is a member of [Object.prototype]
    is accepted. *)
Lemma setActive_inherited name :
  name ∉ Profiles.listProfiles pm → name ∈ Object_prototype →
  Profiles.setActive pm name
  = Normal {| Profiles.profiles := Profiles.profiles pm;
              Profiles.activeProfile := name |}.
Proof.
  intros Hnot Hin. unfold Profiles.setActive, read.
  apply get_None_not_key in Hnot. rewrite Hnot.
  by rewrite bool_decide_eq_true_2.
Qed.

End set_active.

(** C7, on the code.  [constructor] is not a registered profile, yet
    [setActive("constructor")] on a new manager does not fail: the read
    [this.profiles["constructor"]] finds the member of [Object.prototype],
    the active name is changed, and [getActive()] no longer returns the
    profile it returned before. *)
Theorem setActive_accepts_unregistered_name :
  ("constructor" ∉ Profiles.listProfiles (Profiles.constructor []))
  ∧ Profiles.getActive (Profiles.constructor []) = Own Profiles.standard
  ∧ Profiles.setActive (Profiles.constructor []) "constructor"
    = Normal {| Profiles.profiles := Profiles.BUILT_IN_PROFILES;
                Profiles.activeProfile := "constructor" |}
  ∧ Profiles.getActive {| Profiles.profiles := Profiles.BUILT_IN_PROFILES;
                          Profiles.activeProfile := "constructor" |}
    = Inherited "constructor".
Proof.
  split.
  - apply get_None_not_key. reflexivity.
  - repeat split; reflexivity.
Qed.

(** The same call with a name that nothing defines behaves as the
    specification says. *)
Example setActive_nonexistent :
  Profiles.setActive (Profiles.constructor []) "nonexistent"
  = Throw (ErrorObject
             "Unknown profile: nonexistent. Available: standard, hardened, owasp, soc2, pci-dss, hipaa").
Proof. reflexivity. Qed.

(** ** Profile manager: the custom profile *)

Section deep_merge.
Implicit Types (target fields result : list (string * Value)) (k : string).

Lemma deepMerge_loop target fields :
  Profiles.deepMerge target fields = Profiles.merge_loop target fields target.
Proof.
  unfold Profiles.deepMerge. simpl.
  generalize target at 2 4 as result.
  induction fields as [| [key srcVal] rest IH]; intros result; simpl; [done |].
  destruct (String.eqb key "extends"); [apply IH |].
  destruct srcVal; try apply IH.
  all: destruct (get key target) as [[] |]; apply IH.
Qed.

Lemma merge_loop_step target key srcVal :
  match srcVal, get key target with
  | VObj _, Some (VObj tgtVal) => VObj (Profiles.merge_into tgtVal srcVal)
  | _, _ => srcVal
  end = Spec.merged_field (get key target) srcVal.
Proof. by destruct srcVal. Qed.

Lemma merge_loop_get target fields result k :
  NoDup (keys fields) → k ≠ "extends" → k ≠ "__proto__" →
  get k (Profiles.merge_loop target fields result)
  = match get k fields with
    | None => get k result
    | Some v => Some (Spec.merged_field (get k target) v)
    end.
Proof.
  intros Hnodup Hext Hproto. revert result.
  induction fields as [| [key srcVal] rest IH]; intros result; [done |].
  apply NoDup_cons in Hnodup as [Hfresh Hnodup]. simpl in Hfresh.
  apply get_None_not_key in Hfresh. specialize (IH Hnodup).
  simpl. destruct (String.eqb_spec key "extends") as [-> | Hkey].
  - rewrite IH. destruct (String.eqb_spec "extends" k); [congruence | done].
  - transitivity
      (get k (Profiles.merge_loop target rest
                (assign key (Spec.merged_field (get key target) srcVal) result))).
    { rewrite <- merge_loop_step.
      destruct srcVal; try done. by destruct (get key target) as [[] |]. }
    rewrite IH. destruct (String.eqb_spec key k) as [-> | Hne].
    + rewrite Hfresh. by rewrite get_assign_eq.
    + destruct (get k rest); [done |]. by apply get_assign_ne.
Qed.

Lemma merge_loop_get_extends target fields result :
  get "extends" (Profiles.merge_loop target fields result) = get "extends" result.
Proof.
  revert result. induction fields as [| [key srcVal] rest IH]; intros result; [done |].
  simpl. destruct (String.eqb_spec key "extends") as [-> | Hkey]; [apply IH |].
  destruct srcVal; try (rewrite IH; by apply get_assign_ne).
  destruct (get key target) as [[] |]; rewrite IH; by apply get_assign_ne.
Qed.

(** Per key, what [deepMerge] makes of a base and an override. *)
Lemma deepMerge_get target fields k :
  NoDup (keys fields) → k ≠ "extends" → k ≠ "__proto__" →
  get k (Profiles.deepMerge target fields)
  = match get k fields with
    | None => get k target
    | Some v => Some (Spec.merged_field (get k target) v)
    end.
Proof. intros. rewrite deepMerge_loop. by apply merge_loop_get. Qed.

End deep_merge.

Section load_custom_profile.
Variable (pm : Profiles.ProfileManager).
Variables (fields b : list (string * Value)) (ext : Value).
Hypothesis (Hnodup : NoDup (keys fields)).
Hypothesis (Hextends : get "extends" fields = Some ext).
Hypothesis (Htruthy : truthy ext = true).
Hypothesis (Hbase : read (to_string ext) (Profiles.profiles pm) = Own (VObj b)).

Let merged : list (string * Value) :=
  remove "extends" (assign "name" (VStr "custom") (Profiles.deepMerge b fields)).

Let pm' : Profiles.ProfileManager :=
  {| Profiles.profiles := assign "custom" (VObj merged) (Profiles.profiles pm);
     Profiles.activeProfile := Profiles.activeProfile pm |}.

Lemma loadCustomProfile_merges :
  Profiles.loadCustomProfile pm (Some (Normal (VObj fields)))
  = Normal (Profiles.Custom (VObj merged) pm').
Proof.
  unfold Profiles.loadCustomProfile. simpl.
  rewrite Hextends, Htruthy. simpl. rewrite Hbase. reflexivity.
Qed.

Lemma merged_name : get "name" merged = Some (VStr "custom").
Proof.
  unfold merged. rewrite get_remove_ne by done. by apply get_assign_eq.
Qed.

Lemma merged_no_extends : get "extends" merged = None.
Proof. apply get_remove_eq. Qed.

Lemma merged_get k :
  k ≠ "name" → k ≠ "extends" → k ≠ "__proto__" →
  get k merged
  = match get k fields with
    | None => get k b
    | Some v => Some (Spec.merged_field (get k b) v)
    end.
Proof.
  intros Hname Hext Hproto. unfold merged.
  rewrite get_remove_ne, get_assign_ne by done.
  by apply deepMerge_get.
Qed.

Lemma custom_registered : Profiles.getProfile pm' "custom" = Own (VObj merged).
Proof.
  unfold Profiles.getProfile, read. simpl. by rewrite get_assign_eq.
Qed.

Lemma others_registered n :
  n ≠ "custom" → Profiles.getProfile pm' n = Profiles.getProfile pm n.
Proof.
  intros Hne. unfold Profiles.getProfile, read. simpl. by rewrite get_assign_ne.
Qed.

End load_custom_profile.

#[local] Arguments String.eqb : simpl never.

(** C5.  [loadCustomProfile] with an override file that is present and
    declares [extends] with the name of a registered profile returns the deep
    merge of the override onto that base: per key, a field of the override
    that is an object merges recursively with an object of the base, a field
    that is an array or a scalar replaces the base outright, and a field the
    override does not have is the base's; the [extends] marker is stripped,
    the result is named [custom] and registered under [custom], and the
    active selection is untouched; [deepMerge] obeys the same per-key rule
    at every level of the recursion.  In particular [extends: standard] with
    the override [{rules: {secrets: {enabled: false}}}] gives the [standard]
    profile with [rules.secrets.enabled] false, every other rule entry and
    every other field but the name unchanged. *)
Theorem custom_profile_deep_merge :
  (∀ (pm : Profiles.ProfileManager) (fields b : list (string * Value)) (ext : Value),
     NoDup (keys fields) →
     get "extends" fields = Some ext →
     truthy ext = true →
     read (to_string ext) (Profiles.profiles pm) = Own (VObj b) →
     ∃ merged pm',
       Profiles.loadCustomProfile pm (Some (Normal (VObj fields)))
         = Normal (Profiles.Custom (VObj merged) pm')
       ∧ get "name" merged = Some (VStr "custom")
       ∧ get "extends" merged = None
       ∧ (∀ k, k ≠ "name" → k ≠ "extends" → k ≠ "__proto__" →
            get k merged
            = match get k fields with
              | None => get k b
              | Some v => Some (Spec.merged_field (get k b) v)
              end)
       ∧ Profiles.getProfile pm' "custom" = Own (VObj merged)
       ∧ (∀ n, n ≠ "custom" → Profiles.getProfile pm' n = Profiles.getProfile pm n)
       ∧ Profiles.activeProfile pm' = Profiles.activeProfile pm)
  ∧ (∀ (target source : list (string * Value)) (k : string),
       NoDup (keys source) → k ≠ "extends" → k ≠ "__proto__" →
       get k (Profiles.deepMerge target source)
       = match get k source with
         | None => get k target
         | Some v => Some (Spec.merged_field (get k target) v)
         end)
  ∧ (∃ pm',
       Profiles.loadCustomProfile (Profiles.constructor [])
         (Some (Normal Examples.secrets_off))
         = Normal (Profiles.Custom Examples.standard_secrets_off pm')
       ∧ Spec.path ["rules"; "secrets"; "enabled"] Examples.standard_secrets_off
         = Some (VBool false)
       ∧ (∀ k, k ≠ "secrets" →
            Spec.path ["rules"; k] Examples.standard_secrets_off
            = Spec.path ["rules"; k] Profiles.standard)
       ∧ (∀ k, k ≠ "name" → k ≠ "rules" →
            Spec.path [k] Examples.standard_secrets_off = Spec.path [k] Profiles.standard)
       ∧ Spec.path ["name"] Examples.standard_secrets_off = Some (VStr "custom")
       ∧ Spec.path ["extends"] Examples.standard_secrets_off = None
       ∧ Profiles.getProfile pm' "custom" = Own Examples.standard_secrets_off
       ∧ Profiles.getActive pm' = Own Profiles.standard).
Proof.
  split.
  - intros pm fields b ext Hnodup Hextends Htruthy Hbase.
    eexists _, _.
    split; [exact (loadCustomProfile_merges pm fields b ext Hextends Htruthy Hbase) |].
    split; [apply merged_name |].
    split; [apply merged_no_extends |].
    split; [intros k; by apply merged_get |].
    split; [apply custom_registered |].
    split; [apply others_registered |].
    reflexivity.
  - split; [apply deepMerge_get |].
    eexists. split; [reflexivity |].
    split; [reflexivity |].
    split.
    { intros k Hk. simpl.
      destruct (String.eqb_spec "sast" k); [done |].
      destruct (String.eqb_spec "dependencies" k); [done |].
      destruct (String.eqb_spec "secrets" k); [congruence | done]. }
    split.
    { intros k Hname Hrules. simpl.
      destruct (String.eqb_spec "name" k); [congruence |].
      destruct (String.eqb_spec "version" k); [done |].
      destruct (String.eqb_spec "description" k); [done |].
      destruct (String.eqb_spec "severity_thresholds" k); [done |].
      destruct (String.eqb_spec "rules" k); [congruence | done]. }
    repeat split; reflexivity.
Qed.

Lemma custom_profile_deep_merge_witness :
  NoDup (keys (Spec.fields_of Examples.secrets_off))
  ∧ get "extends" (Spec.fields_of Examples.secrets_off) = Some (VStr "standard")
  ∧ truthy (VStr "standard") = true
  ∧ read (to_string (VStr "standard")) (Profiles.profiles (Profiles.constructor []))
    = Own (VObj (Spec.fields_of Profiles.standard))
  ∧ ∃ merged pm',
      Profiles.loadCustomProfile (Profiles.constructor [])
        (Some (Normal (VObj (Spec.fields_of Examples.secrets_off))))
        = Normal (Profiles.Custom (VObj merged) pm')
      ∧ get "name" merged = Some (VStr "custom")
      ∧ get "extends" merged = None
      ∧ (∀ k, k ≠ "name" → k ≠ "extends" → k ≠ "__proto__" →
           get k merged
           = match get k (Spec.fields_of Examples.secrets_off) with
             | None => get k (Spec.fields_of Profiles.standard)
             | Some v => Some (Spec.merged_field (get k (Spec.fields_of Profiles.standard)) v)
             end)
      ∧ Profiles.getProfile pm' "custom" = Own (VObj merged)
      ∧ (∀ n, n ≠ "custom" →
           Profiles.getProfile pm' n = Profiles.getProfile (Profiles.constructor []) n)
      ∧ Profiles.activeProfile pm' = Profiles.activeProfile (Profiles.constructor []).
Proof.
  assert (NoDup (keys (Spec.fields_of Examples.secrets_off))) as Hnodup.
  { apply (bool_decide_unpack _). vm_compute. exact I. }
  split; [exact Hnodup |].
  split; [reflexivity |]. split; [reflexivity |]. split; [reflexivity |].
  apply (proj1 custom_profile_deep_merge (Profiles.constructor [])
           (Spec.fields_of Examples.secrets_off) (Spec.fields_of Profiles.standard)
           (VStr "standard")); [exact Hnodup | reflexivity ..].
Defined.

(** * Further properties of the modelled code *)

(** ** Router: what deduplication keeps *)

Section dedup_more.
Implicit Types (seen : gset string) (l : list Finding).

Lemma filter_seen_fresh seen l f :
  f ∈ Router.filter_seen seen l → Router.dedup_key f ∉ seen.
Proof.
  revert seen. induction l as [| g l IH]; intros seen; simpl; [by intros ?%elem_of_nil |].
  case_decide as Hin.
  - apply IH.
  - intros [-> | Hf]%elem_of_cons; [done |].
    apply IH in Hf. set_solver.
Qed.

Lemma filter_seen_NoDup seen l :
  NoDup (Router.dedup_key <$> Router.filter_seen seen l).
Proof.
  revert seen. induction l as [| g l IH]; intros seen; simpl; [constructor |].
  case_decide as Hin; [apply IH |].
  simpl. constructor; [| apply IH].
  intros (f & Hkey & Hf)%list_elem_of_fmap.
  apply filter_seen_fresh in Hf. set_solver.
Qed.

Lemma filter_seen_sublist seen l : Router.filter_seen seen l `sublist_of` l.
Proof.
  revert seen. induction l as [| g l IH]; intros seen; simpl; [done |].
  case_decide; [by apply sublist_cons | by apply sublist_skip].
Qed.

Lemma filter_seen_covers seen l f :
  f ∈ l → Router.dedup_key f ∉ seen →
  ∃ g, g ∈ Router.filter_seen seen l ∧ Router.dedup_key g = Router.dedup_key f.
Proof.
  revert seen. induction l as [| h l IH]; intros seen; [by intros ?%elem_of_nil |].
  intros [-> | Hf]%elem_of_cons Hfresh; simpl.
  - case_decide as Hin; [done |]. eexists. split; [left | done].
  - case_decide as Hin.
    + by apply IH.
    + destruct (decide (Router.dedup_key f = Router.dedup_key h)) as [Heq | Hne].
      * exists h. split; [left | done].
      * destruct (IH ({[Router.dedup_key h]} ∪ seen) Hf) as (g & Hg & Hkey); [set_solver |].
        exists g. split; [by right | done].
Qed.

Lemma filter_seen_distinct seen l :
  NoDup (Router.dedup_key <$> l) →
  (∀ f, f ∈ l → Router.dedup_key f ∉ seen) →
  Router.filter_seen seen l = l.
Proof.
  revert seen. induction l as [| g l IH]; intros seen Hnodup Hfresh; simpl; [done |].
  apply NoDup_cons in Hnodup as [Hg Hnodup].
  rewrite decide_False by (apply Hfresh; left).
  f_equal. apply IH; [done |].
  intros f Hf. apply not_elem_of_union. split.
  - intros Heq%elem_of_singleton. apply Hg, list_elem_of_fmap. eauto.
  - apply Hfresh. by right.
Qed.

End dedup_more.

(** X1.  The findings deduplication returns have pairwise distinct keys. *)
Theorem dedup_keys_distinct (l : list Finding) :
  NoDup (Router.dedup_key <$> Router.deduplicateFindings l).
Proof. apply filter_seen_NoDup. Qed.

(** X2.  Deduplication invents nothing and loses no key: what it returns is
    a sublist of its input, in the input's order, and every finding of the
    input has a finding with the same key in the output. *)
Theorem dedup_sublist_covering (l : list Finding) :
  Router.deduplicateFindings l `sublist_of` l
  ∧ ∀ f, f ∈ l →
      ∃ g, g ∈ Router.deduplicateFindings l ∧ Router.dedup_key g = Router.dedup_key f.
Proof.
  split; [apply filter_seen_sublist |].
  intros f Hf. apply filter_seen_covers; [done | set_solver].
Qed.

Lemma dedup_sublist_covering_witness :
  Examples.sqli_dast ∈ [Examples.sqli_sast; Examples.sqli_dast]
  ∧ ∃ g, g ∈ Router.deduplicateFindings [Examples.sqli_sast; Examples.sqli_dast]
         ∧ Router.dedup_key g = Router.dedup_key Examples.sqli_dast.
Proof.
  assert (Examples.sqli_dast ∈ [Examples.sqli_sast; Examples.sqli_dast]) as Hin
    by (right; left).
  split; [exact Hin |].
  exact (proj2 (dedup_sublist_covering [Examples.sqli_sast; Examples.sqli_dast])
           Examples.sqli_dast Hin).
Defined.

(** X3.  A findings list whose keys are pairwise distinct is returned
    unchanged by deduplication. *)
Theorem dedup_distinct_unchanged (l : list Finding) :
  NoDup (Router.dedup_key <$> l) → Router.deduplicateFindings l = l.
Proof. intros Hnodup. apply filter_seen_distinct; [done | set_solver]. Qed.

Lemma dedup_distinct_unchanged_witness :
  NoDup (Router.dedup_key <$> [Examples.sqli_sast; Examples.colon_left])
  ∧ Router.deduplicateFindings [Examples.sqli_sast; Examples.colon_left]
    = [Examples.sqli_sast; Examples.colon_left].
Proof.
  assert (NoDup (Router.dedup_key <$> [Examples.sqli_sast; Examples.colon_left])) as Hnodup.
  { apply (bool_decide_unpack _). vm_compute. exact I. }
  split; [exact Hnodup |].
  exact (dedup_distinct_unchanged [Examples.sqli_sast; Examples.colon_left] Hnodup).
Defined.

(** X4.  Deduplicating an already deduplicated list changes nothing. *)
Theorem dedup_twice (l : list Finding) :
  Router.deduplicateFindings (Router.deduplicateFindings l) = Router.deduplicateFindings l.
Proof. apply filter_seen_distinct; [apply filter_seen_NoDup | set_solver]. Qed.

(** X5.  Findings appended to a list never change what deduplication keeps of
    the list itself: the result for [l1] is a prefix of the result for
    [l1 ++ l2], so a backend's findings are never displaced by those of a
    backend registered after it. *)
Theorem dedup_prefix_stable (l1 l2 : list Finding) :
  Router.deduplicateFindings l1 `prefix_of` Router.deduplicateFindings (l1 ++ l2).
Proof.
  unfold Router.deduplicateFindings. rewrite filter_seen_app.
  by eexists.
Qed.

(** ** Router: the client map *)

Section client_map.
Implicit Types (scanners : list (string * Router.ScannerConfig)).
Implicit Types (m : list (string * ScannerClient.ScannerClient)).

Lemma set_fresh {V} (k : string) (v : V) (o : list (string * V)) :
  k ∉ keys o → Js.set k v o = o ++ [(k, v)].
Proof.
  unfold keys. induction o as [| [k' v'] o IH]; simpl; [done |].
  intros [Hne Hfresh]%not_elem_of_cons.
  destruct (String.eqb_spec k' k); [congruence |]. by rewrite IH.
Qed.

Lemma register_all m scanners :
  NoDup (keys m ++ keys scanners) →
  foldl Router.register m scanners
  = m ++ ((fun entry => (entry.1, Spec.client_of entry.1 entry.2))
            <$> List.filter (fun entry => Router.enabled entry.2) scanners).
Proof.
  revert m. induction scanners as [| [n sc] scanners IH]; intros m Hnodup; simpl.
  - by rewrite app_nil_r.
  - unfold keys in Hnodup. simpl in Hnodup.
    apply NoDup_app in Hnodup as (Hm & Hdisjoint & Hrest).
    apply NoDup_cons in Hrest as [Hn Hrest].
    destruct (Router.enabled sc) eqn:Hen.
    + rewrite set_fresh by (intros Hin; apply (Hdisjoint n Hin); left).
      rewrite IH.
      * simpl. by rewrite <- app_assoc.
      * unfold keys. rewrite fmap_app. simpl. rewrite <- app_assoc. simpl.
        apply NoDup_app. split; [done |]. split.
        -- intros k Hk [-> | Hin]%elem_of_cons.
           ++ apply (Hdisjoint n Hk). left.
           ++ apply (Hdisjoint k Hk). by right.
        -- by constructor.
    + apply IH. unfold keys. apply NoDup_app. split; [done |]. split; [| done].
      intros k Hk Hin. apply (Hdisjoint k Hk). by right.
Qed.

Lemma get_registered scanners name sc :
  NoDup (keys scanners) → (name, sc) ∈ scanners → Router.enabled sc = true →
  get name ((fun entry => (entry.1, Spec.client_of entry.1 entry.2))
              <$> List.filter (fun entry => Router.enabled entry.2) scanners)
  = Some (Spec.client_of name sc).
Proof.
  unfold keys. induction scanners as [| [n sc'] scanners IH]; [by intros _ ?%elem_of_nil |].
  simpl. intros [Hn Hnodup]%NoDup_cons [[= <- <-] | Hin]%elem_of_cons Hen.
  - rewrite Hen. simpl. by rewrite String.eqb_refl.
  - assert (n ≠ name) as Hne.
    { intros ->. apply Hn, list_elem_of_fmap. by exists (name, sc). }
    destruct (Router.enabled sc'); simpl; [| by apply IH].
    destruct (String.eqb_spec n name); [done | by apply IH].
Qed.

End client_map.

(** X6.  For a configuration whose scanner names are distinct, the router's
    client map holds exactly the enabled scanners, in configuration order,
    each under its own name with the base URL [http://<host>:<port>]. *)
Theorem router_registers_enabled (scanners : list (string * Router.ScannerConfig)) :
  NoDup (keys scanners) →
  Router.clients (Router.constructor scanners)
  = (fun entry => (entry.1, Spec.client_of entry.1 entry.2))
      <$> List.filter (fun entry => Router.enabled entry.2) scanners.
Proof.
  intros Hnodup. unfold Router.constructor. simpl.
  by rewrite (register_all [] scanners Hnodup).
Qed.

Lemma router_registers_enabled_witness :
  NoDup (keys Examples.config)
  ∧ Router.clients (Router.constructor Examples.config)
    = (fun entry => (entry.1, Spec.client_of entry.1 entry.2))
        <$> List.filter (fun entry => Router.enabled entry.2) Examples.config.
Proof.
  assert (NoDup (keys Examples.config)) as Hnodup.
  { apply (bool_decide_unpack _). vm_compute. exact I. }
  split; [exact Hnodup |].
  exact (router_registers_enabled Examples.config Hnodup).
Defined.

(** X7.  [scanWith] on an enabled backend is the call of that backend's
    client: when the RPC to [http://<host>:<port>/scan] succeeds, the
    backend's result is returned as it is; when it fails, the degraded result
    with the one warning is returned. *)
Theorem scanWith_enabled (fetch : ScannerClient.Fetch) (now_iso : string)
    (scanners : list (string * Router.ScannerConfig)) (name : string)
    (sc : Router.ScannerConfig) (request : ScanRequest) :
  NoDup (keys scanners) → (name, sc) ∈ scanners → Router.enabled sc = true →
  (∀ r, Spec.rpc_success (fetch (Spec.scan_url (Spec.client_of name sc)) request) r →
        Router.scanWith fetch now_iso (Router.constructor scanners) name request = Normal r)
  ∧ (∀ reason,
       Spec.rpc_failure (Spec.client_of name sc)
         (fetch (Spec.scan_url (Spec.client_of name sc)) request) reason →
       Router.scanWith fetch now_iso (Router.constructor scanners) name request
       = Normal (ScannerClient.degraded (Spec.client_of name sc) now_iso reason)).
Proof.
  intros Hnodup Hin Hen. unfold Router.scanWith, Router.constructor. simpl.
  rewrite (register_all [] scanners Hnodup). simpl.
  rewrite (get_registered scanners name sc Hnodup Hin Hen).
  split.
  - intros r Hr. by apply scan_success.
  - intros reason Hfail. by apply scan_failure.
Qed.

Lemma scanWith_enabled_witness :
  NoDup (keys Examples.config)
  ∧ ("deps", Router.mkScannerConfig true "127.0.0.1" 9002) ∈ Examples.config
  ∧ Spec.rpc_success
      (Examples.sast_down Examples.deps_plain
         (Spec.scan_url (Spec.client_of "deps" (Router.mkScannerConfig true "127.0.0.1" 9002)))
         Examples.request)
      Examples.deps_plain
  ∧ Router.scanWith (Examples.sast_down Examples.deps_plain) "now"
      (Router.constructor Examples.config) "deps" Examples.request
    = Normal Examples.deps_plain.
Proof.
  assert (NoDup (keys Examples.config)) as Hnodup.
  { apply (bool_decide_unpack _). vm_compute. exact I. }
  assert (("deps", Router.mkScannerConfig true "127.0.0.1" 9002) ∈ Examples.config) as Hin
    by (right; left).
  assert (Spec.rpc_success
            (Examples.sast_down Examples.deps_plain
               (Spec.scan_url (Spec.client_of "deps"
                                 (Router.mkScannerConfig true "127.0.0.1" 9002)))
               Examples.request)
            Examples.deps_plain) as Hok
    by (eexists; repeat split; reflexivity).
  split; [exact Hnodup |]. split; [exact Hin |]. split; [exact Hok |].
  exact (proj1 (scanWith_enabled (Examples.sast_down Examples.deps_plain) "now"
                  Examples.config "deps" (Router.mkScannerConfig true "127.0.0.1" 9002)
                  Examples.request Hnodup Hin eq_refl)
           Examples.deps_plain Hok).
Defined.

(** ** Router: fan-out *)

(** X8.  [scanAll] contacts only the backends it dispatches to: two networks
    that answer alike at the scan URLs of the enabled, requested backends
    give the same merged result, whatever they answer elsewhere. *)
Theorem scanAll_only_dispatched (fetch1 fetch2 : ScannerClient.Fetch) (start finish : Z)
    (now_iso : string) (client_iso : string → string) (r : Router.Router)
    (request : ScanRequest) (requestedScanners : option (gset string)) :
  (∀ entry, entry ∈ Router.clients r →
            Router.is_requested requestedScanners entry = true →
            fetch1 (Spec.scan_url entry.2) request = fetch2 (Spec.scan_url entry.2) request) →
  Router.scanAll fetch1 start finish now_iso client_iso r request requestedScanners
  = Router.scanAll fetch2 start finish now_iso client_iso r request requestedScanners.
Proof.
  intros Hsame. unfold Router.scanAll.
  assert (map (fun entry : string * ScannerClient.ScannerClient =>
                 ScannerClient.scan fetch1 (client_iso entry.1) entry.2 request)
              (List.filter (Router.is_requested requestedScanners) (Router.clients r))
          = map (fun entry : string * ScannerClient.ScannerClient =>
                   ScannerClient.scan fetch2 (client_iso entry.1) entry.2 request)
                (List.filter (Router.is_requested requestedScanners) (Router.clients r)))
    as ->; [| done].
  apply map_ext_in. intros entry [Hin Hreq]%filter_In.
  unfold ScannerClient.scan. unfold Spec.scan_url in Hsame.
  rewrite (Hsame entry); [done | by apply list_elem_of_In | done].
Qed.

Lemma scanAll_only_dispatched_witness :
  (∀ entry, entry ∈ Router.clients Examples.router →
            Router.is_requested (Some {["deps"]}) entry = true →
            Examples.sast_down Examples.deps_plain (Spec.scan_url entry.2) Examples.request
            = (fun _ _ => Normal (mkResponse 200 (BodyValue Examples.deps_plain)))
                (Spec.scan_url entry.2) Examples.request)
  ∧ Router.scanAll (Examples.sast_down Examples.deps_plain) 0 5 "now" (fun _ => "now")
      Examples.router Examples.request (Some {["deps"]})
    = Router.scanAll (fun _ _ => Normal (mkResponse 200 (BodyValue Examples.deps_plain)))
        0 5 "now" (fun _ => "now") Examples.router Examples.request (Some {["deps"]}).
Proof.
  assert (∀ entry, entry ∈ Router.clients Examples.router →
            Router.is_requested (Some {["deps"]}) entry = true →
            Examples.sast_down Examples.deps_plain (Spec.scan_url entry.2) Examples.request
            = (fun _ _ => Normal (mkResponse 200 (BodyValue Examples.deps_plain)))
                (Spec.scan_url entry.2) Examples.request) as Hsame.
  { intros entry Hin Hreq. change (Router.clients Examples.router)
      with [("sast", Examples.sast_client); ("deps", Examples.deps_client)] in Hin.
    apply elem_of_cons in Hin as [-> | Hin]; [by vm_compute in Hreq |].
    apply elem_of_cons in Hin as [-> | Hin]; [reflexivity |].
    by apply elem_of_nil in Hin. }
  split; [exact Hsame |].
  exact (scanAll_only_dispatched (Examples.sast_down Examples.deps_plain)
           (fun _ _ => Normal (mkResponse 200 (BodyValue Examples.deps_plain)))
           0 5 "now" (fun _ => "now") Examples.router Examples.request
           (Some {["deps"]}) Hsame).
Defined.

Section all_down.
Variables (fetch : ScannerClient.Fetch) (client_iso : string → string).
Variable (request : ScanRequest).

Lemma scans_fail entries reasons :
  Forall2 (fun (entry : string * ScannerClient.ScannerClient) reason =>
             Spec.rpc_failure entry.2 (fetch (Spec.scan_url entry.2) request) reason)
    entries reasons →
  map (fun entry : string * ScannerClient.ScannerClient =>
         ScannerClient.scan fetch (client_iso entry.1) entry.2 request) entries
  = Normal <$> zip_with (fun (entry : string * ScannerClient.ScannerClient) reason =>
                           ScannerClient.degraded entry.2 (client_iso entry.1) reason)
                 entries reasons.
Proof.
  induction 1 as [| entry reason entries reasons Hfail _ IH]; simpl; [done |].
  by rewrite (scan_failure _ _ _ _ _ Hfail), IH.
Qed.

Lemma degraded_findings entries reasons :
  concat (findings <$> zip_with (fun (entry : string * ScannerClient.ScannerClient) reason =>
                                   ScannerClient.degraded entry.2 (client_iso entry.1) reason)
                         entries reasons) = [].
Proof.
  revert reasons. induction entries as [| entry entries IH]; intros [| reason reasons];
    simpl; first [done | apply IH].
Qed.

Lemma degraded_warnings entries reasons :
  Spec.own_warnings (zip_with (fun (entry : string * ScannerClient.ScannerClient) reason =>
                                 ScannerClient.degraded entry.2 (client_iso entry.1) reason)
                       entries reasons)
  = zip_with (fun (entry : string * ScannerClient.ScannerClient) reason =>
                Spec.unavailable (ScannerClient.name entry.2) reason)
      entries reasons.
Proof.
  unfold Spec.own_warnings.
  revert reasons. induction entries as [| entry entries IH]; intros [| reason reasons];
    simpl; first [done | f_equal; apply IH].
Qed.

End all_down.

(** X9.  When the RPC of every dispatched backend fails, [scanAll] still
    completes normally: the merged result has no findings and carries one
    warning per dispatched backend, in dispatch order (no warnings field when
    nothing was dispatched). *)
Theorem scanAll_all_backends_down (fetch : ScannerClient.Fetch) (start finish : Z)
    (now_iso : string) (client_iso : string → string) (r : Router.Router)
    (request : ScanRequest) (requestedScanners : option (gset string))
    (reasons : list string) :
  Forall2 (fun (entry : string * ScannerClient.ScannerClient) reason =>
             Spec.rpc_failure entry.2 (fetch (Spec.scan_url entry.2) request) reason)
    (List.filter (Router.is_requested requestedScanners) (Router.clients r)) reasons →
  ∃ res,
    Router.scanAll fetch start finish now_iso client_iso r request requestedScanners
      = Normal res
    ∧ findings res = []
    ∧ warnings (metadata res)
      = match reasons with
        | [] => None
        | _ :: _ =>
            Some (zip_with (fun (entry : string * ScannerClient.ScannerClient) reason =>
                              Spec.unavailable (ScannerClient.name entry.2) reason)
                    (List.filter (Router.is_requested requestedScanners) (Router.clients r))
                    reasons)
        end.
Proof.
  intros Hdown. unfold Router.scanAll, Router.collect.
  rewrite (scans_fail fetch client_iso request _ _ Hdown), collect_fulfilled.
  rewrite degraded_findings, degraded_warnings. simpl.
  destruct Hdown as [| entry reason entries reasons Hfail Hrest]; simpl.
  - eexists. split; [reflexivity |]. done.
  - eexists. split; [reflexivity |]. done.
Qed.

Lemma scanAll_all_backends_down_witness :
  Forall2 (fun (entry : string * ScannerClient.ScannerClient) reason =>
             Spec.rpc_failure entry.2
               (Examples.all_down (Spec.scan_url entry.2) Examples.request) reason)
    (List.filter (Router.is_requested None) (Router.clients Examples.router))
    ["fetch failed"; "fetch failed"]
  ∧ ∃ res,
      Router.scanAll Examples.all_down 0 5 "now" (fun _ => "now") Examples.router
        Examples.request None = Normal res
      ∧ findings res = []
      ∧ warnings (metadata res)
        = Some (zip_with (fun (entry : string * ScannerClient.ScannerClient) reason =>
                            Spec.unavailable (ScannerClient.name entry.2) reason)
                  (List.filter (Router.is_requested None) (Router.clients Examples.router))
                  ["fetch failed"; "fetch failed"]).
Proof.
  assert (Forall2 (fun (entry : string * ScannerClient.ScannerClient) reason =>
             Spec.rpc_failure entry.2
               (Examples.all_down (Spec.scan_url entry.2) Examples.request) reason)
            (List.filter (Router.is_requested None) (Router.clients Examples.router))
            ["fetch failed"; "fetch failed"]) as Hdown.
  { repeat constructor;
      exact (Spec.transport_failure _ (ErrorObject "fetch failed")). }
  split; [exact Hdown |].
  exact (scanAll_all_backends_down Examples.all_down 0 5 "now" (fun _ => "now")
           Examples.router Examples.request None ["fetch failed"; "fetch failed"] Hdown).
Defined.

(** ** Router: health *)

Section health.
Variable (probe : ScannerClient.Probe).

Lemma isHealthy_total c :
  ScannerClient.isHealthy probe c = Normal (Spec.healthy probe c).
Proof.
  unfold ScannerClient.isHealthy, Spec.healthy.
  by destruct (probe _).
Qed.

Lemma healthCheck_loop_get entries checks :
  NoDup (keys entries) →
  ∃ checks',
    Router.healthCheck_loop probe entries checks = Normal checks'
    ∧ ∀ name, name ≠ "__proto__" →
        get name checks'
        = match get name entries with
          | Some c => Some (Spec.healthy probe c)
          | None => get name checks
          end.
Proof.
  unfold keys. revert checks.
  induction entries as [| [n c] entries IH]; intros checks Hnodup; simpl.
  - eauto.
  - apply NoDup_cons in Hnodup as [Hn Hnodup]. simpl in Hn.
    apply get_None_not_key in Hn. rewrite isHealthy_total. simpl.
    destruct (IH (assign n (Spec.healthy probe c) checks) Hnodup) as (checks' & -> & Hget).
    exists checks'. split; [done |].
    intros name Hname. rewrite (Hget name Hname).
    destruct (String.eqb_spec n name) as [-> | Hne].
    + rewrite Hn. by apply get_assign_eq.
    + destruct (get name entries); [done |]. by apply get_assign_ne.
Qed.

End health.

(** X10.  [healthCheck] never fails as a whole: it completes normally with a
    record that has, for every enabled backend, whether its [/health] probe
    answered with a success status ([false] when the probe was rejected), and
    no entry for any other name (a backend named [__proto__] apart, for
    which the assignment [checks[name] = ...] defines no property). *)
Theorem healthCheck_reports_each_backend (probe : ScannerClient.Probe) (r : Router.Router) :
  NoDup (keys (Router.clients r)) →
  ∃ checks,
    Router.healthCheck probe r = Normal checks
    ∧ ∀ name, name ≠ "__proto__" →
        get name checks = Spec.healthy probe <$> get name (Router.clients r).
Proof.
  intros Hnodup.
  destruct (healthCheck_loop_get probe (Router.clients r) [] Hnodup) as (checks & Hrun & Hget).
  exists checks. split; [exact Hrun |].
  intros name Hname. rewrite (Hget name Hname).
  by destruct (get name (Router.clients r)).
Qed.

Lemma healthCheck_reports_each_backend_witness :
  NoDup (keys (Router.clients Examples.router))
  ∧ ∃ checks,
      Router.healthCheck (fun _ => Throw (ErrorObject "fetch failed")) Examples.router
        = Normal checks
      ∧ ∀ name, name ≠ "__proto__" →
          get name checks
          = Spec.healthy (fun _ => Throw (ErrorObject "fetch failed"))
              <$> get name (Router.clients Examples.router).
Proof.
  assert (NoDup (keys (Router.clients Examples.router))) as Hnodup.
  { apply (bool_decide_unpack _). vm_compute. exact I. }
  split; [exact Hnodup |].
  exact (healthCheck_reports_each_backend (fun _ => Throw (ErrorObject "fetch failed"))
           Examples.router Hnodup).
Defined.

(** ** License client: the cache *)

Section license_cache.
Implicit Types (c : License.LicenseClient) (key : string) (fetch : License.Fetch).

Lemma validate_outcomes fetch now stored_at c key :
  (∃ entry, License.cache c !! key = Some entry ∧ now < License.expiry entry
            ∧ License.validate fetch now stored_at c key
              = Normal {| License.verdict := License.result entry; License.client := c;
                          License.remote_calls := [] |})
  ∨ (∃ v, License.valid v = true
          ∧ License.validate fetch now stored_at c key
            = Normal {| License.verdict := v;
                        License.client := License.with_cached c key v stored_at;
                        License.remote_calls := [License.validate_url c] |})
  ∨ (∃ v, License.valid v = false
          ∧ License.validate fetch now stored_at c key
            = Normal {| License.verdict := v; License.client := c;
                        License.remote_calls := [License.validate_url c] |}).
Proof.
  destruct (License.cache_live c key now) eqn:Hlive.
  - left. unfold License.cache_live in Hlive.
    destruct (License.cache c !! key) as [entry |] eqn:Hentry; [| done].
    exists entry. split; [done |].
    destruct (Z.gtb_spec (License.expiry entry) now); [| done].
    split; [lia |]. by apply validate_hit; [| lia].
  - right. rewrite (validate_miss _ _ _ _ _ Hlive).
    destruct (validate_remote_cases fetch stored_at c key)
      as [v [(Hvalid & -> & _) | (Hinvalid & -> & _)]]; simpl; eauto.
Qed.

End license_cache.

Lemma new_client_cache_valid url : Spec.cache_valid (License.constructor url).
Proof. intros k entry Hentry. simpl in Hentry. by rewrite lookup_empty in Hentry. Qed.

(** X11.  [validate] only ever touches the cache entry of the key it is asked
    about: the server URL and the entries of all other keys are as before,
    and the cache keeps holding valid verdicts only. *)
Theorem validate_cache_frame (fetch : License.Fetch) (now stored_at : Z)
    (c : License.LicenseClient) (key : string) :
  ∃ validated,
    License.validate fetch now stored_at c key = Normal validated
    ∧ License.serverUrl (License.client validated) = License.serverUrl c
    ∧ (∀ k, k ≠ key →
         License.cache (License.client validated) !! k = License.cache c !! k)
    ∧ (Spec.cache_valid c → Spec.cache_valid (License.client validated)).
Proof.
  destruct (validate_outcomes fetch now stored_at c key)
    as [(entry & _ & _ & ->) | [(v & Hvalid & ->) | (v & _ & ->)]];
    eexists; (split; [reflexivity |]); simpl.
  - done.
  - unfold License.with_cached. simpl. split; [done |]. split.
    + intros k Hne. by apply lookup_insert_ne.
    + intros Hall k entry. simpl. rewrite lookup_insert. case_decide as Hk.
      * by intros [= <-].
      * apply Hall.
  - done.
Qed.

Lemma validate_cache_frame_witness :
  Spec.cache_valid Examples.licenseClient
  ∧ ∃ validated,
      License.validate Examples.license_valid 0 5 Examples.licenseClient "KEY"
        = Normal validated
      ∧ License.serverUrl (License.client validated)
        = License.serverUrl Examples.licenseClient
      ∧ (∀ k, k ≠ "KEY" →
           License.cache (License.client validated) !! k
           = License.cache Examples.licenseClient !! k)
      ∧ Spec.cache_valid (License.client validated).
Proof.
  assert (Spec.cache_valid Examples.licenseClient) as Hvalid
    by apply new_client_cache_valid.
  split; [exact Hvalid |].
  destruct (validate_cache_frame Examples.license_valid 0 5 Examples.licenseClient "KEY")
    as (validated & Hrun & Hurl & Hframe & Hkeep).
  exists validated. repeat split; [exact Hrun | exact Hurl | exact Hframe |].
  exact (Hkeep Hvalid).
Defined.

(** X12.  A verdict that is not valid is never served from the cache: as long
    as the cache holds valid verdicts only, which it does from construction
    on, a call of [validate] that returns an invalid verdict has issued a
    remote call and has left the client as it was. *)
Theorem invalid_verdict_is_fresh (fetch : License.Fetch) (now stored_at : Z)
    (c : License.LicenseClient) (key : string) (validated : License.Validated) :
  Spec.cache_valid c →
  License.validate fetch now stored_at c key = Normal validated →
  License.valid (License.verdict validated) = false →
  License.remote_calls validated = [License.validate_url c]
  ∧ License.client validated = c.
Proof.
  intros Hall Hrun Hinvalid.
  destruct (validate_outcomes fetch now stored_at c key)
    as [(entry & Hentry & _ & Heq) | [(v & Hvalid & Heq) | (v & _ & Heq)]];
    rewrite Heq in Hrun; injection Hrun as <-; simpl in *.
  - rewrite (Hall key entry Hentry) in Hinvalid. done.
  - congruence.
  - done.
Qed.

Lemma invalid_verdict_is_fresh_witness :
  Spec.cache_valid Examples.licenseClient
  ∧ License.validate Examples.license_down 0 5 Examples.licenseClient "KEY"
    = Normal {| License.verdict := License.INVALID_RESULT;
                License.client := Examples.licenseClient;
                License.remote_calls := [License.validate_url Examples.licenseClient] |}
  ∧ License.remote_calls
      {| License.verdict := License.INVALID_RESULT;
         License.client := Examples.licenseClient;
         License.remote_calls := [License.validate_url Examples.licenseClient] |}
    = [License.validate_url Examples.licenseClient]
  ∧ License.client
      {| License.verdict := License.INVALID_RESULT;
         License.client := Examples.licenseClient;
         License.remote_calls := [License.validate_url Examples.licenseClient] |}
    = Examples.licenseClient.
Proof.
  assert (Spec.cache_valid Examples.licenseClient) as Hvalid
    by apply new_client_cache_valid.
  split; [exact Hvalid |]. split; [reflexivity |].
  exact (invalid_verdict_is_fresh Examples.license_down 0 5 Examples.licenseClient "KEY"
           _ Hvalid eq_refl eq_refl).
Defined.

(** X13.  [isFeatureAllowed] answers [false] without any remote call when the
    key is absent or empty; with a key it answers [true] only if [validate]
    gave a valid verdict that lists the feature; and it answers [false] when
    the authority cannot be reached and nothing live is cached. *)
Theorem isFeatureAllowed_policy (fetch : License.Fetch) (now stored_at : Z)
    (c : License.LicenseClient) (key : option string) (feature : string) :
  (License.no_key key = true →
     License.isFeatureAllowed fetch now stored_at c key feature = Normal (false, c, []))
  ∧ (∀ c' calls,
       License.isFeatureAllowed fetch now stored_at c key feature = Normal (true, c', calls) →
       ∃ k validated,
         key = Some k
         ∧ License.validate fetch now stored_at c k = Normal validated
         ∧ License.valid (License.verdict validated) = true
         ∧ feature ∈ License.features (License.verdict validated))
  ∧ (∀ k, key = Some k → k ≠ "" →
       License.cache_live c k now = false → License.unreachable fetch c k →
       License.isFeatureAllowed fetch now stored_at c key feature
       = Normal (false, c, [License.validate_url c])).
Proof.
  unfold License.isFeatureAllowed, License.no_key. split; [| split].
  - destruct key as [k |]; [| done]. by intros ->.
  - intros c' calls. destruct key as [k |]; [| done].
    destruct (String.eqb k ""); [done |].
    destruct (validate_never_raises fetch now stored_at c k) as [validated Hrun].
    rewrite Hrun. simpl. intros [= Hallowed <- <-].
    apply andb_true_iff in Hallowed as [Hvalid Hfeature].
    exists k, validated. repeat split; [done | done |].
    by apply bool_decide_eq_true in Hfeature.
  - intros k -> Hk Hmiss Hun.
    destruct (String.eqb_spec k ""); [done |].
    rewrite (validate_miss _ _ _ _ _ Hmiss).
    destruct (validate_remote_cases fetch stored_at c k)
      as [v [(_ & _ & Hanswers) | (Hinvalid & -> & _)]].
    + destruct (answers_not_unreachable _ _ _ _ Hanswers Hun).
    + simpl. by rewrite Hinvalid.
Qed.

Lemma isFeatureAllowed_policy_witness :
  License.no_key (Some "") = true
  ∧ License.isFeatureAllowed Examples.license_valid 0 5 Examples.licenseClient (Some "") "sast"
    = Normal (false, Examples.licenseClient, []).
Proof.
  split; [reflexivity |].
  exact (proj1 (isFeatureAllowed_policy Examples.license_valid 0 5 Examples.licenseClient
                  (Some "") "sast") eq_refl).
Defined.

(** ** License client: usage reports *)

Section usage.


Lemma count_severity_total (findings : list Finding) :
  Spec.count_severity critical findings + Spec.count_severity high findings
  + Spec.count_severity medium findings + Spec.count_severity low findings
  + Spec.count_severity info findings
  = Z.of_nat (length findings).
Proof.
  unfold Spec.count_severity.
  induction findings as [| f findings IH]; simpl; [done |].
  destruct (severity f); simpl; lia.
Qed.

End usage.



(** ** Profile manager: further behaviour *)

Section profiles_more.
Implicit Types (target fields result : list (string * Value)) (k : string).

Lemma get_assign_is_Some k k' (v : Value) result :
  is_Some (get k result) → is_Some (get k (assign k' v result)).
Proof.
  intros Hk. unfold assign.
  destruct (String.eqb_spec k k') as [<- | Hne].
  - destruct Hk as [w Hw]. rewrite Hw. rewrite get_set_eq. eauto.
  - destruct (get k' result); [by rewrite get_set_ne |].
    destruct (String.eqb k' "__proto__"); [done | by rewrite get_set_ne].
Qed.

Lemma merge_loop_keeps_keys target fields result k :
  is_Some (get k result) → is_Some (get k (Profiles.merge_loop target fields result)).
Proof.
  revert result. induction fields as [| [key srcVal] rest IH]; intros result Hk; [done |].
  simpl. destruct (String.eqb key "extends"); [by apply IH |].
  destruct srcVal; try (apply IH; by apply get_assign_is_Some).
  destruct (get key target) as [[] |]; apply IH; by apply get_assign_is_Some.
Qed.

Lemma merge_loop_frame target fields result k :
  k ∉ keys fields →
  get k (Profiles.merge_loop target fields result) = get k result.
Proof.
  unfold keys. revert result.
  induction fields as [| [key srcVal] rest IH]; intros result Hk; [done |].
  simpl in Hk. apply not_elem_of_cons in Hk as [Hne Hk].
  simpl. destruct (String.eqb key "extends"); [by apply IH |].
  destruct srcVal; try (rewrite IH by done; by apply get_assign_ne).
  destruct (get key target) as [[] |]; rewrite IH by done; by apply get_assign_ne.
Qed.

End profiles_more.

(** X15.  [deepMerge] never drops a field of the base, and a field the
    override does not mention keeps the base's value exactly. *)
Theorem deepMerge_keeps_base (target source : list (string * Value)) (k : string) :
  (is_Some (get k target) → is_Some (get k (Profiles.deepMerge target source)))
  ∧ (k ∉ keys source → get k (Profiles.deepMerge target source) = get k target).
Proof.
  rewrite deepMerge_loop. split.
  - apply merge_loop_keeps_keys.
  - apply merge_loop_frame.
Qed.

Lemma deepMerge_keeps_base_witness :
  is_Some (get "version" (Spec.fields_of Profiles.standard))
  ∧ ("version" ∉ keys (Spec.fields_of Examples.secrets_off))
  ∧ is_Some (get "version" (Profiles.deepMerge (Spec.fields_of Profiles.standard)
                              (Spec.fields_of Examples.secrets_off)))
  ∧ get "version" (Profiles.deepMerge (Spec.fields_of Profiles.standard)
                     (Spec.fields_of Examples.secrets_off))
    = get "version" (Spec.fields_of Profiles.standard).
Proof.
  assert (is_Some (get "version" (Spec.fields_of Profiles.standard))) as Hsome
    by (by eexists).
  assert ("version" ∉ keys (Spec.fields_of Examples.secrets_off)) as Hfresh
    by (apply get_None_not_key; reflexivity).
  split; [exact Hsome |]. split; [exact Hfresh |].
  destruct (deepMerge_keeps_base (Spec.fields_of Profiles.standard)
              (Spec.fields_of Examples.secrets_off) "version") as [Hkeep Hframe].
  split; [exact (Hkeep Hsome) | exact (Hframe Hfresh)].
Defined.

(** X16.  After a successful [setActive(name)] the active profile is the one
    registered under [name], and the set of registered profiles is as
    before. *)
Theorem setActive_then_getActive (pm pm' : Profiles.ProfileManager) (name : string) :
  Profiles.setActive pm name = Normal pm' →
  Profiles.getActive pm' = Profiles.getProfile pm name
  ∧ Profiles.profiles pm' = Profiles.profiles pm
  ∧ Profiles.listProfiles pm' = Profiles.listProfiles pm
  ∧ Profiles.read_truthy (Profiles.getProfile pm name) = true.
Proof.
  unfold Profiles.setActive, Profiles.getProfile.
  destruct (Profiles.read_truthy (read name (Profiles.profiles pm))) eqn:Hread; [| done].
  simpl. by intros [= <-].
Qed.

Lemma setActive_then_getActive_witness :
  Profiles.setActive (Profiles.constructor []) "hipaa"
  = Normal {| Profiles.profiles := Profiles.BUILT_IN_PROFILES;
              Profiles.activeProfile := "hipaa" |}
  ∧ Profiles.getActive {| Profiles.profiles := Profiles.BUILT_IN_PROFILES;
                          Profiles.activeProfile := "hipaa" |}
    = Profiles.getProfile (Profiles.constructor []) "hipaa"
  ∧ Profiles.profiles {| Profiles.profiles := Profiles.BUILT_IN_PROFILES;
                         Profiles.activeProfile := "hipaa" |}
    = Profiles.profiles (Profiles.constructor [])
  ∧ Profiles.listProfiles {| Profiles.profiles := Profiles.BUILT_IN_PROFILES;
                             Profiles.activeProfile := "hipaa" |}
    = Profiles.listProfiles (Profiles.constructor [])
  ∧ Profiles.read_truthy (Profiles.getProfile (Profiles.constructor []) "hipaa") = true.
Proof.
  split; [reflexivity |].
  exact (setActive_then_getActive (Profiles.constructor []) _ "hipaa" eq_refl).
Defined.



(** X18.  [loadCustomProfile] returns [null] when the override file is
    absent, when it does not parse to an object, and when the object has no
    [extends] field or one that is not truthy; a failure to read or parse
    the file is raised to the caller; and an [extends] that names nothing,
    registered or inherited, raises [Unknown base profile: <name>]. *)
Theorem loadCustomProfile_no_profile (pm : Profiles.ProfileManager) :
  Profiles.loadCustomProfile pm None = Normal Profiles.Null
  ∧ (∀ e, Profiles.loadCustomProfile pm (Some (Throw e)) = Throw e)
  ∧ (∀ parsed,
       match Profiles.extends_of parsed with
       | Some ext => truthy ext = false
       | None => True
       end →
       Profiles.loadCustomProfile pm (Some (Normal parsed)) = Normal Profiles.Null)
  ∧ (∀ fields ext,
       get "extends" fields = Some ext → truthy ext = true →
       read (to_string ext) (Profiles.profiles pm) = Undefined →
       Profiles.loadCustomProfile pm (Some (Normal (VObj fields)))
       = Throw (ErrorObject ("Unknown base profile: " +:+ to_string ext))).
Proof.
  split; [done |]. split; [done |]. split.
  - intros parsed Hext. unfold Profiles.loadCustomProfile. simpl.
    destruct (Profiles.extends_of parsed) as [ext |] eqn:Hparsed; [| done].
    rewrite Hext. by destruct parsed.
  - intros fields ext Hext Htruthy Hbase.
    unfold Profiles.loadCustomProfile. simpl.
    by rewrite Hext, Htruthy, Hbase.
Qed.

Lemma loadCustomProfile_no_profile_witness :
  get "extends" [("extends", VStr "strict")] = Some (VStr "strict")
  ∧ truthy (VStr "strict") = true
  ∧ read (to_string (VStr "strict")) (Profiles.profiles (Profiles.constructor [])) = Undefined
  ∧ Profiles.loadCustomProfile (Profiles.constructor [])
      (Some (Normal (VObj [("extends", VStr "strict")])))
    = Throw (ErrorObject ("Unknown base profile: " +:+ to_string (VStr "strict"))).
Proof.
  split; [reflexivity |]. split; [reflexivity |]. split; [reflexivity |].
  exact (proj2 (proj2 (proj2 (loadCustomProfile_no_profile (Profiles.constructor []))))
           [("extends", VStr "strict")] (VStr "strict") eq_refl eq_refl eq_refl).
Defined.

(** ** Server: counting and scoring *)

Section counting.
Implicit Types (findings : list Finding) (b : list (string * Z)).

Lemma severity_name_inj s1 s2 :
  Server.severity_name s1 = Server.severity_name s2 → s1 = s2.
Proof. by destruct s1, s2. Qed.

Lemma or_zero_id x : Server.or_zero x = x.
Proof. unfold Server.or_zero. destruct (Z.eqb_spec x 0); lia. Qed.

(** One turn of the counting loop of [calculateScore] and
    [summarizeFindings]. *)
Lemma count_step b f s :
  default 0 (get (Server.severity_name s)
               (Js.set (Server.severity_name (severity f))
                  (match get (Server.severity_name (severity f)) b with
                   | Some n => Server.or_zero n
                   | None => 0
                   end + 1) b))
  = default 0 (get (Server.severity_name s) b)
    + (if bool_decide (severity f = s) then 1 else 0).
Proof.
  case_bool_decide as Hs.
  - subst s. rewrite get_set_eq. simpl.
    destruct (get _ b); simpl; by rewrite ?or_zero_id.
  - rewrite get_set_ne; [lia |].
    intros Heq%severity_name_inj. congruence.
Qed.

Lemma count_loop findings b s :
  default 0 (get (Server.severity_name s)
               (foldl (fun by_severity f =>
                         Js.set (Server.severity_name (severity f))
                           (match get (Server.severity_name (severity f)) by_severity with
                            | Some n => Server.or_zero n
                            | None => 0
                            end + 1)
                           by_severity)
                      b findings))
  = default 0 (get (Server.severity_name s) b) + Spec.count_severity s findings.
Proof.
  unfold Spec.count_severity. revert b.
  induction findings as [| f findings IH]; intros b; simpl; [lia |].
  rewrite IH, count_step. case_bool_decide; simpl; lia.
Qed.

Lemma tally_breakdown findings d b :
  (foldl (fun acc f =>
            let '(deductions, breakdown) := acc in
            (deductions + Server.or_zero (Server.weights (severity f)),
             Js.set (Server.severity_name (severity f))
               (match get (Server.severity_name (severity f)) breakdown with
                | Some n => Server.or_zero n
                | None => 0
                end + 1)
               breakdown))
         (d, b) findings).2
  = foldl (fun by_severity f =>
             Js.set (Server.severity_name (severity f))
               (match get (Server.severity_name (severity f)) by_severity with
                | Some n => Server.or_zero n
                | None => 0
                end + 1)
               by_severity)
          b findings.
Proof.
  revert d b. induction findings as [| f findings IH]; intros d b; simpl; [done |].
  apply IH.
Qed.

Lemma total_weight_app findings1 findings2 :
  Spec.total_weight (findings1 ++ findings2)
  = Spec.total_weight findings1 + Spec.total_weight findings2.
Proof. induction findings1 as [| f l IH]; simpl; lia. Qed.

Lemma total_weight_perm findings1 findings2 :
  findings1 ≡ₚ findings2 → Spec.total_weight findings1 = Spec.total_weight findings2.
Proof. induction 1; simpl; lia. Qed.

End counting.

(** X19.  The [breakdown] of [get_security_score] and the [by_severity] of the
    findings summary count the findings per severity: the entry of a
    severity is the number of findings of that severity (absent or 0 stands
    for none), the two records agree, and the summary's [total] is the sum
    of the five counts. *)
Theorem breakdown_counts (findings : list Finding) :
  (∀ s, default 0 (get (Server.severity_name s)
                     (Server.breakdown (Server.calculateScore findings)))
        = Spec.count_severity s findings)
  ∧ (∀ s, default 0 (get (Server.severity_name s)
                       (Server.by_severity (Server.summarizeFindings findings)))
          = Spec.count_severity s findings)
  ∧ Server.total (Server.summarizeFindings findings)
    = Spec.count_severity critical findings + Spec.count_severity high findings
      + Spec.count_severity medium findings + Spec.count_severity low findings
      + Spec.count_severity info findings.
Proof.
  split; [| split].
  - intros s. destruct findings as [| f findings]; [done |].
    etransitivity; [| exact (count_loop (f :: findings) [] s)].
    unfold Server.calculateScore, Server.tally.
    rewrite <- (tally_breakdown (f :: findings) 0 []).
    by destruct (foldl _ (0, []) (f :: findings)) as [deductions breakdown].
  - intros s. unfold Server.summarizeFindings. simpl. by rewrite count_loop.
  - simpl. by rewrite count_severity_total.
Qed.

(** X20.  More findings never raise the score, and the score does not depend
    on the order of the findings. *)
Theorem score_antitone (findings more : list Finding) :
  Server.score (Server.calculateScore (findings ++ more))
  ≤ Server.score (Server.calculateScore findings)
  ∧ (∀ reordered, findings ≡ₚ reordered →
       Server.score (Server.calculateScore reordered)
       = Server.score (Server.calculateScore findings)).
Proof.
  rewrite !calculateScore_score, total_weight_app.
  pose proof (total_weight_nonneg more). split; [lia |].
  intros reordered Hperm.
  by rewrite calculateScore_score, (total_weight_perm _ _ Hperm).
Qed.

Lemma score_antitone_witness :
  Examples.info_only ≡ₚ reverse Examples.info_only
  ∧ Server.score (Server.calculateScore (reverse Examples.info_only))
    = Server.score (Server.calculateScore Examples.info_only).
Proof.
  assert (Examples.info_only ≡ₚ reverse Examples.info_only) as Hperm
    by (symmetry; apply reverse_Permutation).
  split; [exact Hperm |].
  exact (proj2 (score_antitone Examples.info_only []) (reverse Examples.info_only) Hperm).
Defined.

(** ** Server: path translation *)

Section container_path.
Variables (SCAN_MOUNT SCAN_DIR : string) (existsSync : string → bool).

Lemma prefix_cancel (a b q : string) :
  String.prefix (a +:+ b) (a +:+ q) = String.prefix b q.
Proof.
  induction a as [| x a IH]; [done |]. rewrite !append_cons. simpl.
  destruct (Ascii.ascii_dec x x); [exact IH | done].
Qed.

Lemma prefix_slice (a b p : string) :
  String.prefix (a +:+ b) p = true →
  String.prefix b (Server.slice (String.length a) p) = true.
Proof.
  revert p. induction a as [| x a IH]; intros p; [done |].
  rewrite append_cons. destruct p as [| y p]; simpl; [done |].
  destruct (Ascii.ascii_dec x y); [apply IH | done].
Qed.

Lemma under_mount_unchanged p :
  String.prefix (SCAN_MOUNT +:+ "/") p = true →
  Server.toContainerPath SCAN_MOUNT SCAN_DIR existsSync p = p.
Proof. intros Hp. unfold Server.toContainerPath. by rewrite Hp. Qed.

Lemma toContainerPath_cases p :
  String.prefix "/" p = true →
  Server.toContainerPath SCAN_MOUNT SCAN_DIR existsSync p = p
  ∨ String.prefix (SCAN_MOUNT +:+ "/")
      (Server.toContainerPath SCAN_MOUNT SCAN_DIR existsSync p) = true.
Proof.
  intros Habs. unfold Server.toContainerPath.
  destruct (String.prefix (SCAN_MOUNT +:+ "/") p || String.eqb p SCAN_MOUNT); [by left |].
  destruct (String.prefix (SCAN_DIR +:+ "/") p) eqn:Hdir.
  - right. rewrite prefix_cancel. by apply prefix_slice.
  - destruct (existsSync (SCAN_MOUNT +:+ p)); [| by left].
    right. by rewrite prefix_cancel.
Qed.

End container_path.

(** X21.  For an absolute host path, [toContainerPath] returns the path
    itself or a path under the mount point, and translating twice is the
    same as translating once; a path under [SCAN_DIR] that is not already
    under the mount point is rewritten to the mount point followed by the
    rest of the path. *)
Theorem toContainerPath_idempotent (SCAN_MOUNT SCAN_DIR : string)
    (existsSync : string → bool) (hostPath : string) :
  String.prefix "/" hostPath = true →
  let translated := Server.toContainerPath SCAN_MOUNT SCAN_DIR existsSync hostPath in
  (translated = hostPath ∨ String.prefix (SCAN_MOUNT +:+ "/") translated = true)
  ∧ Server.toContainerPath SCAN_MOUNT SCAN_DIR existsSync translated = translated
  ∧ (String.prefix (SCAN_MOUNT +:+ "/") hostPath = false →
     String.eqb hostPath SCAN_MOUNT = false →
     String.prefix (SCAN_DIR +:+ "/") hostPath = true →
     translated = SCAN_MOUNT +:+ Server.slice (String.length SCAN_DIR) hostPath).
Proof.
  intros Habs translated. subst translated.
  pose proof (toContainerPath_cases SCAN_MOUNT SCAN_DIR existsSync hostPath Habs) as Hcases.
  split; [exact Hcases |]. split.
  - destruct Hcases as [Hsame | Hunder].
    + by rewrite !Hsame.
    + by apply under_mount_unchanged.
  - intros Hmount Heq Hdir. unfold Server.toContainerPath.
    by rewrite Hmount, Heq, Hdir.
Qed.

Lemma toContainerPath_idempotent_witness :
  String.prefix "/" "/Users/foo/bar" = true
  ∧ (Server.toContainerPath "/scan" "/Users" (fun _ => false) "/Users/foo/bar"
     = "/Users/foo/bar"
     ∨ String.prefix ("/scan" +:+ "/")
         (Server.toContainerPath "/scan" "/Users" (fun _ => false) "/Users/foo/bar") = true)
  ∧ Server.toContainerPath "/scan" "/Users" (fun _ => false)
      (Server.toContainerPath "/scan" "/Users" (fun _ => false) "/Users/foo/bar")
    = Server.toContainerPath "/scan" "/Users" (fun _ => false) "/Users/foo/bar"
  ∧ (String.prefix ("/scan" +:+ "/") "/Users/foo/bar" = false →
     String.eqb "/Users/foo/bar" "/scan" = false →
     String.prefix ("/Users" +:+ "/") "/Users/foo/bar" = true →
     Server.toContainerPath "/scan" "/Users" (fun _ => false) "/Users/foo/bar"
     = "/scan" +:+ Server.slice (String.length "/Users") "/Users/foo/bar").
Proof.
  split; [reflexivity |].
  exact (toContainerPath_idempotent "/scan" "/Users" (fun _ => false) "/Users/foo/bar"
           eq_refl).
Defined.

Example toContainerPath_users :
  Server.toContainerPath "/scan" "/Users" (fun _ => false) "/Users/foo/bar" = "/scan/foo/bar".
Proof. reflexivity. Qed.

(** ** Server: queries on the cached findings *)

Section queries.
Implicit Types (lastFindings : list Finding).

Lemma filter_sublist {A} (p : A → bool) (l : list A) : List.filter p l `sublist_of` l.
Proof.
  induction l as [| x l IH]; simpl; [done |].
  destruct (p x); [by apply sublist_skip | by apply sublist_cons].
Qed.

Lemma filter_none {A} (p : A → bool) (l : list A) :
  (∀ x, p x = false) → List.filter p l = [].
Proof. intros Hp. induction l as [| x l IH]; simpl; [done |]. by rewrite Hp. Qed.

End queries.

(** X22.  [get_findings] returns cached findings only, in their cached order,
    with [total] their number; each returned finding has the severity asked
    for and a file that contains the text asked for; a parameter that is
    absent or empty filters nothing; and a severity that is not one of the
    five names gives the empty answer with [total] 0, not an error. *)
Theorem get_findings_filters (lastFindings : list Finding)
    (severity_param file_param : option string) :
  let '(filtered, total) := Server.get_findings lastFindings severity_param file_param in
  total = Z.of_nat (length filtered)
  ∧ filtered `sublist_of` lastFindings
  ∧ (∀ f, f ∈ filtered →
       (∀ sev, Server.given severity_param = Some sev →
               Server.severity_name (severity f) = sev)
       ∧ (∀ sub, Server.given file_param = Some sub →
                 Server.includes (file f) sub = true))
  ∧ (Server.given severity_param = None → Server.given file_param = None →
     filtered = lastFindings)
  ∧ (∀ sev, Server.given severity_param = Some sev →
            sev ∉ Schemas.VALID_SEVERITIES → filtered = []).
Proof.
  unfold Server.get_findings.
  destruct (Server.given severity_param) as [sev |];
    destruct (Server.given file_param) as [sub |]; simpl.
  - split; [done |]. split.
    { etransitivity; apply filter_sublist. }
    split.
    { intros f [[Hf Hsev]%filter_In Hsub]%list_elem_of_In%filter_In.
      split; [intros ? [= <-]; by apply String.eqb_eq | by intros ? [= <-]]. }
    split; [done |].
    intros ? [= <-] Hbad. rewrite (filter_none _ lastFindings); [done |].
    intros f. apply String.eqb_neq. intros <-. apply Hbad.
    unfold Schemas.VALID_SEVERITIES. destruct (severity f); set_solver.
  - split; [done |]. split; [apply filter_sublist |]. split.
    { intros f [Hf Hsev]%list_elem_of_In%filter_In.
      split; [intros ? [= <-]; by apply String.eqb_eq | done]. }
    split; [done |].
    intros ? [= <-] Hbad. apply filter_none.
    intros f. apply String.eqb_neq. intros <-. apply Hbad.
    unfold Schemas.VALID_SEVERITIES. destruct (severity f); set_solver.
  - split; [done |]. split; [apply filter_sublist |]. split.
    { intros f [Hf Hsub]%list_elem_of_In%filter_In.
      split; [done | by intros ? [= <-]]. }
    done.
  - done.
Qed.

Lemma get_findings_filters_witness :
  Server.given (Some "urgent") = Some "urgent"
  ∧ ("urgent" ∉ Schemas.VALID_SEVERITIES)
  ∧ (Server.get_findings Examples.info_only (Some "urgent") None).1 = [].
Proof.
  assert ("urgent" ∉ Schemas.VALID_SEVERITIES) as Hbad.
  { apply (bool_decide_unpack _). vm_compute. exact I. }
  split; [reflexivity |]. split; [exact Hbad |].
  pose proof (get_findings_filters Examples.info_only (Some "urgent") None) as Hall.
  destruct (Server.get_findings Examples.info_only (Some "urgent") None)
    as [filtered total].
  exact (proj2 (proj2 (proj2 (proj2 Hall))) "urgent" eq_refl Hbad).
Defined.

(** X23.  [suggest_fix] reports on the first cached finding with the id asked
    for, and answers [Finding not found] exactly when no cached finding has
    that id. *)
Theorem suggest_fix_first_match (lastFindings : list Finding) (finding_id_param : string) :
  match Server.suggest_fix lastFindings finding_id_param with
  | Some f =>
      ∃ before after,
        lastFindings = before ++ f :: after
        ∧ finding_id f = finding_id_param
        ∧ ∀ g, g ∈ before → finding_id g ≠ finding_id_param
  | None => ∀ g, g ∈ lastFindings → finding_id g ≠ finding_id_param
  end.
Proof.
  unfold Server.suggest_fix.
  induction lastFindings as [| f l IH]; simpl; [by intros g ?%elem_of_nil |].
  destruct (String.eqb_spec (finding_id f) finding_id_param) as [Heq | Hne].
  - exists [], l. split; [done |]. split; [done |]. by intros g ?%elem_of_nil.
  - destruct (find _ l) as [g |].
    + destruct IH as (before & after & -> & Hid & Hbefore).
      exists (f :: before), after. split; [done |]. split; [done |].
      intros h [-> | Hh]%elem_of_cons; [done | by apply Hbefore].
    + intros h [-> | Hh]%elem_of_cons; [done | by apply IH].
Qed.

(** ** HTTP bridge: the request body *)

Section read_body.

Lemma body_size_nonneg incoming : 0 ≤ Spec.body_size incoming.
Proof. induction incoming as [| chunk incoming IH]; simpl; lia. Qed.

Lemma readBody_from_spec totalSize chunks incoming ending :
  HttpBridge.readBody_from totalSize chunks incoming ending
  = if totalSize + Spec.body_size incoming >? HttpBridge.MAX_BODY_SIZE
    then match incoming with
         | [] => match ending with
                 | HttpBridge.Ends => Normal (String.concat "" chunks)
                 | HttpBridge.Fails e => Throw e
                 end
         | _ :: _ => Throw (ErrorObject "Request body too large")
         end
    else match ending with
         | HttpBridge.Ends => Normal (String.concat "" (chunks ++ incoming))
         | HttpBridge.Fails e => Throw e
         end.
Proof.
  revert totalSize chunks.
  induction incoming as [| chunk incoming IH]; intros totalSize chunks; simpl.
  - rewrite app_nil_r. by destruct (_ >? _).
  - pose proof (body_size_nonneg incoming) as Hsize.
    destruct (Z.gtb_spec (totalSize + Z.of_nat (String.length chunk))
                HttpBridge.MAX_BODY_SIZE) as [Hover | Hfits].
    + destruct (Z.gtb_spec (totalSize + (Z.of_nat (String.length chunk)
                                          + Spec.body_size incoming))
                  HttpBridge.MAX_BODY_SIZE); [done | lia].
    + rewrite IH, <- app_assoc. simpl.
      rewrite <- Z.add_assoc.
      destruct (Z.gtb_spec (totalSize + (Z.of_nat (String.length chunk)
                                          + Spec.body_size incoming))
                  HttpBridge.MAX_BODY_SIZE) as [Hover | Hfit]; [| done].
      destruct incoming as [| next incoming]; [| done].
      simpl in Hover. lia.
Qed.

End read_body.

(** X24.  [readBody] rejects with [Request body too large] exactly when the
    chunks of the body add up to more than 5 MiB, whatever follows the
    chunk that crosses the limit; a body within the limit resolves to the
    concatenation of its chunks, or rejects with the stream's error when the
    stream fails. *)
Theorem readBody_size_guard (incoming : list string) (ending : HttpBridge.StreamEnd) :
  HttpBridge.readBody incoming ending
  = if Spec.body_size incoming >? 5 * 1024 * 1024
    then Throw (ErrorObject "Request body too large")
    else match ending with
         | HttpBridge.Ends => Normal (String.concat "" incoming)
         | HttpBridge.Fails e => Throw e
         end.
Proof.
  unfold HttpBridge.readBody. rewrite readBody_from_spec, Z.add_0_l. simpl.
  change (5 * 1024 * 1024) with HttpBridge.MAX_BODY_SIZE.
  destruct (Z.gtb_spec (Spec.body_size incoming) HttpBridge.MAX_BODY_SIZE) as [Hover | Hfits];
    [| done].
  destruct incoming; [| done]. simpl in Hover. unfold HttpBridge.MAX_BODY_SIZE in Hover. lia.
Qed.

(** ** HTTP bridge: answers once the license is accepted *)



(** ** Schemas: the validators *)

Section validators.
Implicit Types (input : Value) (v : option Value).

Lemma non_empty_string_iff v :
  Schemas.not_non_empty_string v = false ↔ ∃ s, v = Some (VStr s) ∧ s ≠ "".
Proof.
  unfold Schemas.not_non_empty_string. split.
  - destruct v as [[| | | s | |] |]; try done.
    intros Hs%String.eqb_neq. eauto.
  - intros (s & -> & Hs). by apply String.eqb_neq.
Qed.

Lemma valid_severity_iff v :
  Schemas.valid_severity v = true ↔ ∃ s, v = Some (VStr s) ∧ s ∈ Schemas.VALID_SEVERITIES.
Proof.
  unfold Schemas.valid_severity. split.
  - destruct v as [[| | | s | |] |]; try done.
    intros Hs%bool_decide_eq_true. eauto.
  - intros (s & -> & Hs). by apply bool_decide_eq_true.
Qed.

Lemma push_if_nil test message errors :
  Schemas.push_if test message errors = [] ↔ test = false ∧ errors = [].
Proof.
  unfold Schemas.push_if. destruct test; [| naive_solver].
  split; [| by intros [? _]]. by destruct errors.
Qed.

Lemma validateFinding_valid input :
  Schemas.valid (Schemas.validateFinding input) = true
  ↔ Schemas.is_object input = true
    ∧ Schemas.not_non_empty_string (Schemas.field "id" input) = false
    ∧ Schemas.valid_severity (Schemas.field "severity" input) = true
    ∧ Schemas.not_non_empty_string (Schemas.field "title" input) = false
    ∧ Schemas.not_non_empty_string (Schemas.field "description" input) = false
    ∧ Schemas.not_non_empty_string (Schemas.field "file" input) = false
    ∧ Schemas.not_non_empty_string (Schemas.field "remediation" input) = false.
Proof.
  unfold Schemas.validateFinding.
  destruct (Schemas.is_object input); simpl; [| naive_solver].
  rewrite bool_decide_eq_true, !push_if_nil, negb_false_iff. naive_solver.
Qed.

Lemma validateScanRequest_valid input :
  Schemas.valid (Schemas.validateScanRequest input) = true
  ↔ Schemas.is_object input = true
    ∧ Schemas.not_non_empty_array (Schemas.field "files" input) = false
    ∧ Schemas.not_an_object (Schemas.field "profile" input) = false
    ∧ Schemas.not_an_object (Schemas.field "context" input) = false.
Proof.
  unfold Schemas.validateScanRequest.
  destruct (Schemas.is_object input); simpl; [| naive_solver].
  rewrite bool_decide_eq_true, !push_if_nil. naive_solver.
Qed.

Lemma finding_fields (f : Finding) :
  Schemas.field "id" (Spec.finding_to_value f) = Some (VStr (finding_id f))
  ∧ Schemas.field "severity" (Spec.finding_to_value f)
    = Some (VStr (Server.severity_name (severity f)))
  ∧ Schemas.field "title" (Spec.finding_to_value f) = Some (VStr (title f))
  ∧ Schemas.field "description" (Spec.finding_to_value f) = Some (VStr (description f))
  ∧ Schemas.field "file" (Spec.finding_to_value f) = Some (VStr (file f))
  ∧ Schemas.field "remediation" (Spec.finding_to_value f) = Some (VStr (remediation f)).
Proof.
  destruct f as [fid sev t d fl [ln |] [cw |] [cs |] rem code fx]; repeat split; reflexivity.
Qed.

End validators.

(** X26.  A finding sent as JSON passes [validateFinding] exactly when its id,
    title, description, file and remediation are not empty: the validator
    accepts every finding that meets the contract of the data model and
    rejects every one that breaks it. *)
Theorem validateFinding_roundtrip (f : Finding) :
  Schemas.valid (Schemas.validateFinding (Spec.finding_to_value f)) = true
  ↔ finding_id f ≠ "" ∧ title f ≠ "" ∧ description f ≠ "" ∧ file f ≠ ""
    ∧ remediation f ≠ "".
Proof.
  rewrite validateFinding_valid.
  destruct (finding_fields f) as (-> & -> & -> & -> & -> & ->).
  rewrite !non_empty_string_iff, valid_severity_iff.
  split.
  - intros (_ & (? & [= <-] & ?) & _ & (? & [= <-] & ?) & (? & [= <-] & ?)
            & (? & [= <-] & ?) & (? & [= <-] & ?)). done.
  - intros (? & ? & ? & ? & ?). split; [done |].
    repeat split; try (eexists; split; [reflexivity | done]).
    eexists. split; [reflexivity |].
    unfold Schemas.VALID_SEVERITIES. destruct (severity f); set_solver.
Qed.

(** X27.  [validateFinding] accepts a value exactly when it is an object
    whose [id], [title], [description], [file] and [remediation] are
    non-empty strings and whose [severity] is one of the five severity
    names; anything else, an array included, is rejected. *)
Theorem validateFinding_accepts (input : Value) :
  Schemas.valid (Schemas.validateFinding input) = true
  ↔ ∃ fields id sev title description file remediation,
      input = VObj fields
      ∧ get "id" fields = Some (VStr id) ∧ id ≠ ""
      ∧ get "severity" fields = Some (VStr sev) ∧ sev ∈ Schemas.VALID_SEVERITIES
      ∧ get "title" fields = Some (VStr title) ∧ title ≠ ""
      ∧ get "description" fields = Some (VStr description) ∧ description ≠ ""
      ∧ get "file" fields = Some (VStr file) ∧ file ≠ ""
      ∧ get "remediation" fields = Some (VStr remediation) ∧ remediation ≠ "".
Proof.
  rewrite validateFinding_valid, !non_empty_string_iff, valid_severity_iff.
  split.
  - intros (Hobj & (id & Hid & ?) & (sev & Hsev & ?) & (t & Ht & ?) & (d & Hd & ?)
            & (fl & Hfl & ?) & (rem & Hrem & ?)).
    destruct input as [| | | | | fields]; try done.
    exists fields, id, sev, t, d, fl, rem. done.
  - intros (fields & id & sev & t & d & fl & rem & -> & ? & ? & ? & ? & ? & ? & ? & ?
            & ? & ? & ? & ?).
    simpl. split; [done |]. repeat split; eauto.
Qed.

(** X28.  [validateScanRequest] accepts a value exactly when it is an object
    whose [files] is a non-empty array and whose [profile] and [context] are
    objects (arrays pass the object test too). *)
Theorem validateScanRequest_accepts (input : Value) :
  Schemas.valid (Schemas.validateScanRequest input) = true
  ↔ ∃ fields item items profile context,
      input = VObj fields
      ∧ get "files" fields = Some (VArr (item :: items))
      ∧ get "profile" fields = Some profile ∧ Schemas.is_object profile = true
      ∧ get "context" fields = Some context ∧ Schemas.is_object context = true.
Proof.
  rewrite validateScanRequest_valid. split.
  - intros (Hobj & Hfiles & Hprofile & Hcontext).
    destruct input as [| | | | | fields]; simpl in *; try done.
    unfold Schemas.not_non_empty_array, Schemas.not_an_object in *.
    destruct (get "files" fields) as [[| | | | [| item items] |] |] eqn:Hf; try done.
    destruct (get "profile" fields) as [profile |] eqn:Hp; [| done].
    destruct (get "context" fields) as [context |] eqn:Hc; [| done].
    apply negb_false_iff in Hprofile, Hcontext.
    exists fields, item, items, profile, context. done.
  - intros (fields & item & items & profile & context & -> & Hfiles & Hprofile & ?
            & Hcontext & ?).
    simpl. rewrite Hfiles, Hprofile, Hcontext. simpl.
    split; [done |]. split; [done |]. split; by apply negb_false_iff.
Qed.

(** ** Server: the directory walk *)

Section collect_files.
Variables (join : string → string → string) (extname toLowerCase : string → string).
Variable (maxFiles : nat).

Lemma walk_loop_bound (visit : Server.Entry → list (string * string) → list (string * string))
    (entries : list Server.Entry) :
  Forall (fun entry => ∀ files, (length files < maxFiles)%nat →
                                (length (visit entry files) ≤ maxFiles)%nat) entries →
  ∀ files, (length files ≤ maxFiles)%nat →
           (length (Server.walk_loop maxFiles visit entries files) ≤ maxFiles)%nat.
Proof.
  induction 1 as [| entry entries Hentry _ IH]; intros files Hle; simpl; [done |].
  destruct (Nat.leb_spec maxFiles (length files)); [done |].
  apply IH, Hentry. lia.
Qed.

Lemma visit_bound (entry : Server.Entry) :
  ∀ d files, (length files < maxFiles)%nat →
             (length (Server.visit join extname toLowerCase maxFiles d entry files)
              ≤ maxFiles)%nat.
Proof.
  revert entry. fix IH 1.
  intros [name listing | name size content | name] d files Hlt; simpl.
  - destruct (Server.skipped_directory name); [lia |].
    unfold Server.walk_body.
    destruct (Nat.leb_spec maxFiles (length files)); [lia |].
    destruct listing as [entries |]; [| lia].
    apply walk_loop_bound; [| lia].
    induction entries as [| entry entries IHentries]; constructor.
    + intros files' Hlt'. by apply IH.
    + exact IHentries.
  - destruct (_ || _); [| lia].
    destruct size as [bytes |]; [| lia].
    destruct (bytes >? 1024 * 1024); [lia |].
    destruct content as [text |]; [| lia].
    rewrite length_app. simpl. lia.
  - lia.
Qed.

End collect_files.

(** X29.  [collectFiles] never returns more than [maxFiles] files, however
    large the directory tree is. *)
Theorem collectFiles_bounded (join : string → string → string)
    (extname toLowerCase : string → string) (dir : string)
    (listing : option (list Server.Entry)) (maxFiles : nat) :
  (length (Server.collectFiles join extname toLowerCase dir listing maxFiles)
   ≤ maxFiles)%nat.
Proof.
  unfold Server.collectFiles, Server.walk_body. simpl.
  destruct (Nat.leb_spec maxFiles 0); [simpl; lia |].
  destruct listing as [entries |]; [| simpl; lia].
  apply walk_loop_bound; [| simpl; lia].
  apply Forall_forall. intros entry _ files Hlt. by apply visit_bound.
Qed.

Section collect_files_sound.
Variables (join : string → string → string) (extname toLowerCase : string → string).
Variable (maxFiles : nat).

(** [pair] was read from a file the walk may read, at or below [entry]. *)
Let from_file (entry : Server.Entry) (pair : string * string) : Prop :=
  ∃ name size,
    Spec.reaches entry (Server.EFile name (Some size) (Some pair.2))
    ∧ size ≤ 1024 * 1024
    ∧ Spec.source_name extname toLowerCase name = true.

Lemma walk_loop_sound (visit : Server.Entry → list (string * string) → list (string * string))
    (entries : list Server.Entry) (pair : string * string) :
  Forall (fun entry => ∀ files, pair ∈ visit entry files →
                                pair ∈ files ∨ from_file entry pair) entries →
  ∀ files, pair ∈ Server.walk_loop maxFiles visit entries files →
           pair ∈ files ∨ ∃ entry, entry ∈ entries ∧ from_file entry pair.
Proof.
  induction 1 as [| entry entries Hentry _ IH]; intros files Hin; simpl in Hin; [by left |].
  destruct (maxFiles <=? length files)%nat; [by left |].
  destruct (IH _ Hin) as [Hvisit | (entry' & Hentry' & Hfrom)].
  - destruct (Hentry _ Hvisit) as [Hfiles | Hfrom]; [by left |].
    right. exists entry. split; [left | done].
  - right. exists entry'. split; [by right | done].
Qed.

Lemma visit_sound (entry : Server.Entry) :
  ∀ d files pair,
    pair ∈ Server.visit join extname toLowerCase maxFiles d entry files →
    pair ∈ files ∨ from_file entry pair.
Proof.
  revert entry. fix IH 1.
  intros [name listing | name size content | name] d files pair; simpl; [| | by left].
  - destruct (Server.skipped_directory name) eqn:Hskip; [by left |].
    unfold Server.walk_body.
    destruct (maxFiles <=? length files)%nat; [by left |].
    destruct listing as [entries |]; [| by left].
    intros Hin. apply walk_loop_sound in Hin.
    + destruct Hin as [Hfiles | (child & Hchild & fname & fsize & Hreach & Hsize & Hname)];
        [by left |].
      right. exists fname, fsize. split; [| done].
      by apply (Spec.reaches_below name entries child).
    + clear Hin. induction entries as [| child entries IHentries]; constructor.
      * intros files'. apply IH.
      * exact IHentries.
  - fold (Spec.source_name extname toLowerCase name).
    destruct (Spec.source_name extname toLowerCase name) eqn:Hname; [| by left].
    destruct size as [bytes |]; [| by left].
    destruct (Z.gtb_spec bytes (1024 * 1024)); [by left |].
    destruct content as [text |]; [| by left].
    intros [Hfiles | ->%list_elem_of_singleton]%elem_of_app; [by left |].
    right. exists name, bytes. split; [apply Spec.reaches_here |]. split; [lia | done].
Qed.

End collect_files_sound.

(** X30.  Every file [collectFiles] returns was read from a file at or below
    the root whose name is a source name (a listed extension, or
    [dockerfile] or [makefile]), whose size is at most 1 MiB, and which is
    reached without entering [node_modules], [.git], [dist], [__pycache__]
    or [vendor]. *)
Theorem collectFiles_sound (join : string → string → string)
    (extname toLowerCase : string → string) (dir : string)
    (listing : option (list Server.Entry)) (maxFiles : nat) (path text : string) :
  (path, text) ∈ Server.collectFiles join extname toLowerCase dir listing maxFiles →
  ∃ entries root name size,
    listing = Some entries
    ∧ root ∈ entries
    ∧ Spec.reaches root (Server.EFile name (Some size) (Some text))
    ∧ size ≤ 1024 * 1024
    ∧ Spec.source_name extname toLowerCase name = true.
Proof.
  unfold Server.collectFiles, Server.walk_body.
  destruct (maxFiles <=? length [])%nat; [by intros ?%elem_of_nil |].
  destruct listing as [entries |]; [| by intros ?%elem_of_nil].
  intros Hin. apply (walk_loop_sound extname toLowerCase) in Hin.
  - destruct Hin as [Hnil | (root & Hroot & name & size & Hreach & Hsize & Hname)];
      [by apply elem_of_nil in Hnil |].
    exists entries, root, name, size. done.
  - apply Forall_forall. intros entry _ files. apply visit_sound.
Qed.

Lemma collectFiles_sound_witness :
  ("/p/src/a.js", "eval(input)")
    ∈ Server.collectFiles Examples.join_paths (fun _ => ".js") (fun s => s) "/p"
        (Some Examples.project_tree) 5000
  ∧ ∃ entries root name size,
      Some Examples.project_tree = Some entries
      ∧ root ∈ entries
      ∧ Spec.reaches root (Server.EFile name (Some size) (Some "eval(input)"))
      ∧ size ≤ 1024 * 1024
      ∧ Spec.source_name (fun _ => ".js") (fun s => s) name = true.
Proof.
  assert (("/p/src/a.js", "eval(input)")
            ∈ Server.collectFiles Examples.join_paths (fun _ => ".js") (fun s => s) "/p"
                (Some Examples.project_tree) 5000) as Hin.
  { vm_compute. left. }
  split; [exact Hin |].
  exact (collectFiles_sound Examples.join_paths (fun _ => ".js") (fun s => s) "/p"
           (Some Examples.project_tree) 5000 "/p/src/a.js" "eval(input)" Hin).
Defined.
